(** * HarDNet: link resolution, block assembly and execution, network assembly

    A shallow embedding of [hardnet.py].  The three parts of the program are
    embedded in the order in which they are written:

    - [get_link], the recursive link resolver of a [HarDBlock];
    - [HarDBlock_init] and [HarDBlock_forward], the constructor of a block
      and its forward pass, the latter on tensors abstracted to their channel
      count;
    - [HarDNet_init], the constructor of the network, as a computation that
      appends stages to [self.base] and may raise.

    Python exceptions are values of [py_error]; a computation that may raise
    returns a [result].  Python floats are reached through the interface
    [PyNumber], which has two instances: IEEE binary64, the floats of the
    interpreter, and exact rationals. *)

From Stdlib Require Import ZArith QArith Qround Qpower Lia Lqa Ascii String.
From Stdlib Require Import PrimFloat SpecFloat FloatOps FloatAxioms.
From stdpp Require Import base list sorting strings gmap pretty.

Local Open Scope Z_scope.

(** ** Exceptions and the error monad *)

Inductive py_error : Type :=
| ValueError (msg : string)
| UnboundLocalError (name : string)
| KeyError (key : string)
| FileNotFoundError (path : string)
| IndexError
| OverflowError
| RecursionError
| RuntimeError (msg : string).

Inductive result (A : Type) : Type :=
| Ok (a : A)
| Raise (e : py_error).

Arguments Ok {A} a.
Arguments Raise {A} e.

#[global] Instance result_ret : MRet result := λ A a, Ok a.

#[global] Instance result_bind : MBind result := λ A B f m,
  match m with
  | Ok a => f a
  | Raise e => Raise e
  end.

(** A [for] loop whose body may raise: the state is threaded from left to
    right and the first exception ends the loop. *)
Definition foldM {A B : Type} (body : A → B → result A) (a : A) (l : list B)
    : result A :=
  foldl (λ acc b, a ← acc; body a b) (mret a) l.

(** ** Python values *)

(** [range(n)]: empty when [n <= 0]. *)
Definition range (n : Z) : list Z := Z.of_nat <$> seq 0 (Z.to_nat n).

(** [l[i]] on a list: a negative index counts from the end, an index out of
    range raises [IndexError]. *)
Definition getitem {A : Type} (l : list A) (i : Z) : result A :=
  let n := Z.of_nat (length l) in
  let j := if bool_decide (i < 0) then i + n else i in
  if bool_decide (0 ≤ j < n) then
    match l !! Z.to_nat j with
    | Some a => Ok a
    | None => Raise IndexError
    end
  else Raise IndexError.

(** The arithmetic [get_link] performs on the running width.  In every call
    the program makes [growth_rate] is an [int] and [grmul] a [float] ([1.7],
    [1.6]): the running width starts as the [int], stays an [int] until the
    first product and is a [float] from then on.  An [int] is an integer
    without bound; the operations of the floats are those of [PyNumber]. *)
Class PyNumber (num : Type) : Type := {
  (** [float(n)], as an operation on floats converts an [int] operand;
      [OverflowError] when [n] is beyond the floats *)
  num_of_int : Z → result num;
  (** a literal written in decimal, such as [1.7] *)
  num_literal : Q → num;
  (** [x + y] *)
  num_add : num → num → num;
  (** [x * y] *)
  num_mul : num → num → num;
  (** [n / 2] on an [int] [n]: the true division of two [int]s, which rounds
      the quotient once; [OverflowError] when it is beyond the floats *)
  num_half : Z → result num;
  (** [int(x)] *)
  num_int : num → result Z;
}.

(** A number of the program: an [int] or a [float]. *)
Inductive number (num : Type) : Type :=
| PyInt (n : Z)
| PyFloat (x : num).

Arguments PyInt {num} n.
Arguments PyFloat {num} x.

(** An arithmetic halves exactly when [int(n / 2)], for an [int] [n] of at
    most 53 bits, is [n] halved and truncated toward zero: the quotient
    [n / 2] is a float, and no rounding takes place. *)
Class ExactHalves (num : Type) `{PyNumber num} : Prop :=
  half_exact : ∀ n : Z,
    Z.abs n < 2 ^ 53 → (h ← num_half n; num_int h) = Ok (n `quot` 2).

(** Exact arithmetic: every float is a rational and no operation rounds or
    overflows.  This is what the program computes whenever its floats are
    exact. *)
Module Exact.

(** [int(x)] truncates toward zero. *)
Definition Qtrunc (x : Q) : Z := Z.quot (Qnum x) (Z.pos (Qden x)).

#[global] Instance exact_number : PyNumber Q := {|
  num_of_int := λ n, Ok (inject_Z n);
  num_literal := λ q, q;
  num_add := Qplus;
  num_mul := Qmult;
  num_half := λ n, Ok (inject_Z n / 2)%Q;
  num_int := λ x, Ok (Qtrunc x);
|}.

End Exact.

(** IEEE 754 binary64, the [float] of CPython, on the kernel's primitive
    floats. *)
Module Binary64.

(** The float nearest to an integer (round to nearest, ties to even; an
    infinity beyond the range of binary64). *)
Definition of_Z (z : Z) : float := SF2Prim (binary_normalize prec emax z 0 false).

(** A conversion from an [int] raises where the nearest float is an
    infinity. *)
Definition finite (s : spec_float) : result float :=
  match s with
  | S754_infinity _ => Raise OverflowError
  | _ => Ok (SF2Prim s)
  end.

(** [int(x)]: the integer part; [OverflowError] on an infinity and
    [ValueError] on a NaN. *)
Definition to_Z (x : float) : result Z :=
  match Prim2SF x with
  | S754_zero _ => Ok 0
  | S754_finite s m e =>
      let a := if bool_decide (0 ≤ e) then Z.pos m * 2 ^ e else Z.pos m `div` 2 ^ (- e) in
      Ok (if s then - a else a)
  | S754_infinity _ => Raise OverflowError
  | S754_nan => Raise (ValueError "cannot convert float NaN to integer")
  end.

(** The rational a finite float stands for (0 for an infinity and for a
    NaN). *)
Definition to_Q (x : float) : Q :=
  match Prim2SF x with
  | S754_finite s m e => (inject_Z (if s then Z.neg m else Z.pos m) * 2 ^ e)%Q
  | _ => 0%Q
  end.

(** A decimal literal is read as the quotient of its numerator by its
    denominator, rounded once: the float nearest to the literal whenever
    both are exact in binary64.  [n / 2] is [n * 2^-1] rounded once. *)
#[global] Instance binary64_number : PyNumber float := {|
  num_of_int := λ n, finite (binary_normalize prec emax n 0 false);
  num_literal := λ q, PrimFloat.div (of_Z (Qnum q)) (of_Z (Z.pos (Qden q)));
  num_add := PrimFloat.add;
  num_mul := PrimFloat.mul;
  num_half := λ n, finite (binary_normalize prec emax n (-1) false);
  num_int := to_Z;
|}.

End Binary64.

(** ** The link resolver, [HarDBlock.get_link] *)

Section Resolver.
Context {num : Type} `{PyNumber num}.

(** [out_channels * grmul], for a float [grmul] *)
Definition times_float (out_channels : number num) (grmul : num)
    : result (number num) :=
  match out_channels with
  | PyInt n => x ← num_of_int n; mret (PyFloat (num_mul x grmul))
  | PyFloat x => mret (PyFloat (num_mul x grmul))
  end.

(** [out_channels + 1] *)
Definition plus_one (out_channels : number num) : result (number num) :=
  match out_channels with
  | PyInt n => mret (PyInt (n + 1))
  | PyFloat x => one ← num_of_int 1; mret (PyFloat (num_add x one))
  end.

(** [int(v)] *)
Definition to_int (v : number num) : result Z :=
  match v with
  | PyInt n => mret n
  | PyFloat x => num_int x
  end.

(** [out_channels = int(int(out_channels + 1) / 2) * 2] *)
Definition round_even (out_channels : number num) : result Z :=
  s ← plus_one out_channels;
  n ← to_int s;
  h ← num_half n;
  m ← num_int h;
  mret (m * 2).

(** One iteration of [for i in range(10)], on the pair
    [(out_channels, link)]. *)
Definition scan_step (layer : Z) (grmul : num) (st : number num * list Z) (i : Z)
    : result (number num * list Z) :=
  let '(out_channels, link) := st in
  let dv := 2 ^ i in
  if bool_decide (layer `mod` dv = 0) then
    let k := layer - dv in
    let link := link ++ [k] in
    if bool_decide (0 < i) then
      out_channels ← times_float out_channels grmul;
      mret (out_channels, link)
    else mret (out_channels, link)
  else mret st.

(** The loop [for i in range(10)], from [out_channels = growth_rate] and
    [link = []]. *)
Definition scan (layer growth_rate : Z) (grmul : num)
    : result (number num * list Z) :=
  foldM (scan_step layer grmul) (PyInt growth_rate, []) (range 10).

(** [for i in link: ch,_,_ = get_link(i, ...); in_channels += ch], for a
    resolver [rec] of the earlier layers. *)
Definition sum_links (rec : Z → result (Z * Z * list Z)) (link : list Z)
    : result Z :=
  foldM (λ in_channels i, r ← rec i; mret (in_channels + r.1.1)) 0 link.

(** [get_link], with the depth of the recursion bounded by [fuel]. *)
Fixpoint get_link_rec (fuel : nat) (layer base_ch growth_rate : Z) (grmul : num)
    : result (Z * Z * list Z) :=
  match fuel with
  | O => Raise RecursionError
  | S fuel' =>
      if bool_decide (layer = 0) then mret (base_ch, 0, [])
      else
        st ← scan layer growth_rate grmul;
        let '(raw, link) := st in
        out_channels ← round_even raw;
        in_channels ←
          sum_links (λ i, get_link_rec fuel' i base_ch growth_rate grmul) link;
        mret (out_channels, in_channels, link)
  end.

(** [get_link].  The longest chain of calls from [layer] is
    [layer, layer-1, ..., 0], which the fuel given here covers; a negative
    [layer] recurses without end.  The recursion limit of the interpreter
    itself, a setting, is not modelled. *)
Definition get_link (layer base_ch growth_rate : Z) (grmul : num)
    : result (Z * Z * list Z) :=
  get_link_rec (S (Z.to_nat layer)) layer base_ch growth_rate grmul.

End Resolver.

(** ** Feature transforms and tensors *)

(** The three transform factories of the program.  Each value records the
    arguments the factory was called with. *)
Inductive transform : Type :=
| conv_layer (in_channels out_channels kernel stride : Z)
| dw_conv_layer (in_channels out_channels stride : Z)
| comb_conv_layer (in_channels out_channels kernel stride : Z).

(** A tensor is abstracted to its channel count (axis 1).  Inside a block
    every transform keeps the batch and spatial extents ([stride=1] and
    [padding=kernel//2]), so they play no part in what follows. *)
Record tensor : Type := Tensor { channels : Z }.

(** [nn.Conv2d] refuses an input whose channel count is not its own. *)
Definition conv2d (in_channels out_channels : Z) (x : tensor) : result tensor :=
  if bool_decide (channels x = in_channels) then Ok (Tensor out_channels)
  else Raise (RuntimeError "expected input to have in_channels channels").

(** Applying a transform.  [dw_conv_layer] builds its convolution from
    [groups = in_channels] alone; [comb_conv_layer] is [conv_layer] followed
    by [dw_conv_layer(out_channels, out_channels)]. *)
Definition apply_transform (f : transform) (x : tensor) : result tensor :=
  match f with
  | conv_layer i o _ _ => conv2d i o x
  | dw_conv_layer i _ _ => conv2d i i x
  | comb_conv_layer i o _ _ => y ← conv2d i o x; conv2d o o y
  end.

(** [torch.cat(tensors, 1)] *)
Definition cat (tensors : list tensor) : result tensor :=
  match tensors with
  | [] => Raise (RuntimeError "torch.cat(): expected a non-empty list of Tensors")
  | _ => Ok (Tensor (foldr Z.add 0 (channels <$> tensors)))
  end.

(** ** [HarDBlock] *)

Record HarDBlock : Type := mkHarDBlock {
  keepBase : bool;
  links : list (list Z);
  layers : list transform;
  out_channels : Z;
}.

(** The test [(i % 2 == 0) or (i == n_layers - 1)] of [__init__]; the loop
    index [i] builds layer [i + 1]. *)
Definition counted (n_layers i : Z) : bool :=
  bool_decide (i `mod` 2 = 0) || bool_decide (i = n_layers - 1).

Section Block.
Context {num : Type} `{PyNumber num}.

(** The body of [for i in range(n_layers)] in [__init__], on the triple
    [(self.links, layers_, self.out_channels)]. *)
Definition init_step (in_channels growth_rate : Z) (grmul : num) (n_layers : Z)
    (dwconv : bool) (st : list (list Z) * list transform * Z) (i : Z)
    : result (list (list Z) * list transform * Z) :=
  let '(links, layers_, out_channels) := st in
  r ← get_link (i + 1) in_channels growth_rate grmul;
  let '(outch, inch, link) := r in
  let links := links ++ [link] in
  let layers_ :=
    layers_ ++ [if dwconv then comb_conv_layer inch outch 1 1
                else conv_layer inch outch 3 1] in
  if counted n_layers i
  then mret (links, layers_, out_channels + outch)
  else mret (links, layers_, out_channels).

(** [HarDBlock.__init__]; [residual_out] only sets the unused local
    [use_relu]. *)
Definition HarDBlock_init (in_channels growth_rate : Z) (grmul : num)
    (n_layers : Z) (keepBase residual_out dwconv : bool) : result HarDBlock :=
  st ← foldM (init_step in_channels growth_rate grmul n_layers dwconv)
             ([], [], 0) (range n_layers);
  let '(links, layers_, out_channels) := st in
  mret (mkHarDBlock keepBase links layers_ out_channels).

End Block.

(** [HarDBlock.get_out_ch] *)
Definition get_out_ch (self : HarDBlock) : Z := out_channels self.

(** The body of [for layer in range(len(self.layers))] in [forward], on
    [layers_]. *)
Definition forward_step (self : HarDBlock) (layers_ : list tensor) (layer : Z)
    : result (list tensor) :=
  link ← getitem (links self) layer;
  tin ← foldM (λ tin i, t ← getitem layers_ i; mret (tin ++ [t])) [] link;
  x ← (if bool_decide (1 < Z.of_nat (length tin)) then cat tin else getitem tin 0);
  f ← getitem (layers self) layer;
  out ← apply_transform f x;
  mret (layers_ ++ [out]).

(** The test of the second loop of [forward], for [t = len(layers_)]. *)
Definition selected (keepBase : bool) (t i : Z) : bool :=
  (bool_decide (i = 0) && keepBase)
  || bool_decide (i = t - 1)
  || bool_decide (i `mod` 2 = 1).

(** [HarDBlock.forward] *)
Definition HarDBlock_forward (self : HarDBlock) (x : tensor) : result tensor :=
  layers_ ← foldM (forward_step self) [x] (range (Z.of_nat (length (layers self))));
  let t := Z.of_nat (length layers_) in
  out_ ← foldM (λ out_ i,
                  if selected (keepBase self) t i
                  then v ← getitem layers_ i; mret (out_ ++ [v])
                  else mret out_) [] (range t);
  cat out_.

(** ** [HarDNet] *)

(** The members of [self.base]. *)
Inductive stage : Type :=
| Transform (f : transform)
| MaxPool2d (kernel_size stride padding : Z)
| Dropout (p : Q)
| Block (blk : HarDBlock)
| Classifier (drop_rate : Q) (in_features out_features : Z).

(** The network under construction: [self.base], and the state dict loaded
    into it, if any. *)
Record HarDNet : Type := mkHarDNet {
  base : list stage;
  state_dict : option string;
}.

(** What [__init__] reaches outside the program: [hasattr(torch, 'hub')],
    [torch.hub.load_state_dict_from_url], [os.path.isfile], [torch.load] and
    [self.load_state_dict].  A state dict is named by where it came from. *)
Record environment : Type := {
  has_hub : bool;
  load_state_dict_from_url : string → result string;
  isfile : string → bool;
  torch_load : string → result string;
  load_state_dict : list stage → string → result unit;
}.

(** The constructor runs on the network it is building and may raise; the
    network as it stands when the exception leaves is kept. *)
Definition init (A : Type) : Type := HarDNet → result A * HarDNet.

#[global] Instance init_ret : MRet init := λ A a self, (Ok a, self).

#[global] Instance init_bind : MBind init := λ A B f m self,
  match m self with
  | (Ok a, self') => f a self'
  | (Raise e, self') => (Raise e, self')
  end.

Definition lift {A : Type} (r : result A) : init A := λ self, (r, self).

(** [self.base.append(m)] *)
Definition append (m : stage) : init unit :=
  λ self, (Ok (), mkHarDNet (base self ++ [m]) (state_dict self)).

(** [for] loop in the constructor. *)
Definition for_each {A B : Type} (body : A → B → init A) (a : A) (l : list B)
    : init A :=
  foldl (λ acc b, a ← acc; body a b) (mret a) l.

(** The local variables the [if arch == ...] chain assigns.  [drop_rate] is
    [None] while no assignment to it has run. *)
Record profile : Type := mkProfile {
  first_ch : list Z;
  ch_list : list Z;
  grmul : Q;
  gr : list Z;
  n_layers : list Z;
  downSamp : list Z;
  drop_rate : option Q;
}.

Definition select_profile (arch : Z) : result profile :=
  if bool_decide (arch = 68) then
    Ok {| first_ch := [32; 64];
          ch_list  := [128; 256; 320; 640; 1024];
          grmul    := 17 # 10;
          gr       := [ 14;  16;  20;  40;  160];
          n_layers := [  8;  16;  16;  16;    4];
          downSamp := [  1;   0;   1;   1;    0];
          drop_rate := Some (1 # 10) |}
  else if bool_decide (arch = 85) then
    Ok {| first_ch := [48; 96];
          ch_list  := [192; 256; 320; 480; 720; 1280];
          grmul    := 17 # 10;
          gr       := [ 24;  24;  28;  36;  48;  256];
          n_layers := [  8;  16;  16;  16;  16;    4];
          downSamp := [  1;   0;   1;   0;   1;    0];
          drop_rate := Some (2 # 10) |}
  else if bool_decide (arch = 39) then
    Ok {| first_ch := [24; 48];
          ch_list  := [96; 320; 640; 1024];
          grmul    := 16 # 10;
          gr       := [16;  20;  64;  160];
          n_layers := [ 4;  16;   8;    4];
          downSamp := [ 1;   1;   1;    0];
          drop_rate := None |}
  else
    Raise (ValueError ("Architecture type " +:+ pretty arch +:+ " is not supported")).

(** Reading a local variable. *)
Definition read_local {A : Type} (name : string) (v : option A) : result A :=
  match v with
  | Some a => Ok a
  | None => Raise (UnboundLocalError name)
  end.

(** [str.lower] on ASCII. *)
Definition lower_ascii (c : ascii) : ascii :=
  let n := nat_of_ascii c in
  if bool_decide (65 ≤ n ≤ 90)%nat then ascii_of_nat (n + 32) else c.

Fixpoint lower (s : string) : string :=
  match s with
  | EmptyString => EmptyString
  | String c s => String (lower_ascii c) (lower s)
  end.

Definition checkpoint_urls : gmap string string :=
  {[ "HarDNet39_DS" := "https://ping-chao.com/hardnet/hardnet39ds-0e6c6fa9.pth";
     "HarDNet68" := "https://ping-chao.com/hardnet/hardnet68-5d684880.pth";
     "HarDNet68DS" := "https://ping-chao.com/hardnet/hardnet68ds-632474d2.pth";
     "HarDNet85" := "https://ping-chao.com/hardnet/hardnet85-a28faa00.pth" ]}.

(** [d[key]] on a dict. *)
Definition dict_getitem (d : gmap string string) (key : string) : result string :=
  match d !! key with
  | Some v => Ok v
  | None => Raise (KeyError key)
  end.

(** ["HarDNet%d" % (arch)], followed by ["DS"] for a depthwise network. *)
Definition arch_codename (arch : Z) (depth_wise : bool) : string :=
  let name := "HarDNet" +:+ pretty arch in
  if depth_wise then name +:+ "DS" else name.

Section Network.
Context {num : Type} `{PyNumber num}.
Variable env : environment.

(** The body of [for i in range(blks)], on the local [ch]. *)
Definition stage_step (p : profile) (arch : Z) (depth_wise max_pool : bool)
    (blks : Z) (ch i : Z) : init Z :=
  gr_i ← lift (getitem (gr p) i);
  n_i ← lift (getitem (n_layers p) i);
  blk ← lift (HarDBlock_init ch gr_i (num_literal (grmul p)) n_i
                false false depth_wise);
  let ch := get_out_ch blk in
  _ ← append (Block blk);
  _ ← (if bool_decide (i = blks - 1) && bool_decide (arch = 85)
       then append (Dropout (1 # 10)) else mret ());
  ch_i ← lift (getitem (ch_list p) i);
  _ ← append (Transform (conv_layer ch ch_i 1 1));
  let ch := ch_i in
  d_i ← lift (getitem (downSamp p) i);
  _ ← (if bool_decide (d_i = 1) then
         if max_pool then append (MaxPool2d 2 2 0)
         else append (Transform (dw_conv_layer ch ch 2))
       else mret ());
  mret ch.

(** [self.load_state_dict(weights)] *)
Definition self_load_state_dict (weights : string) : init unit :=
  λ self,
    match load_state_dict env (base self) weights with
    | Ok _ => (Ok (), mkHarDNet (base self) (Some weights))
    | Raise e => (Raise e, self)
    end.

(** The body of [if pretrained:], the closing [print] apart. *)
Definition load_pretrained (arch : Z) (depth_wise : bool) (weight_path : string)
    : init unit :=
  let arch_codename := arch_codename arch depth_wise in
  if has_hub env then
    checkpoint ← lift (dict_getitem checkpoint_urls arch_codename);
    weights ← lift (load_state_dict_from_url env checkpoint);
    self_load_state_dict weights
  else
    let weight_file := weight_path +:+ lower arch_codename +:+ ".pth" in
    if negb (isfile env weight_file) then
      lift (Raise (FileNotFoundError weight_file))
    else
      weights ← lift (torch_load env weight_file);
      self_load_state_dict weights.

(** [HarDNet.__init__] *)
Definition HarDNet_init (depth_wise : bool) (arch : Z) (pretrained : bool)
    (weight_path : string) : init unit :=
  p ← lift (select_profile arch);
  let second_kernel := 3 in
  let max_pool := true in
  let '(second_kernel, max_pool, drop_rate) :=
    if depth_wise then (1, false, Some (5 # 100)) else (second_kernel, max_pool, drop_rate p) in
  let blks := Z.of_nat (length (n_layers p)) in
  (* First Layer: Standard Conv3x3, Stride=2 *)
  c0 ← lift (getitem (first_ch p) 0);
  _ ← append (Transform (conv_layer 3 c0 3 2));
  (* Second Layer *)
  c1 ← lift (getitem (first_ch p) 1);
  _ ← append (Transform (conv_layer c0 c1 second_kernel 1));
  (* Maxpooling or DWConv3x3 downsampling *)
  _ ← (if max_pool then append (MaxPool2d 3 2 1)
       else append (Transform (dw_conv_layer c1 c1 2)));
  (* Build all HarDNet blocks *)
  _ ← for_each (stage_step p arch depth_wise max_pool blks) c1 (range blks);
  ch ← lift (getitem (ch_list p) (blks - 1));
  rate ← lift (read_local "drop_rate" drop_rate);
  _ ← append (Classifier rate ch 1000);
  if pretrained then load_pretrained arch depth_wise weight_path else mret ().

End Network.

(** A fresh [nn.Module], before [__init__] has assigned anything. *)
Definition new_module : HarDNet := mkHarDNet [] None.

(** Applying a member of [self.base], on channel counts alone.  Pooling and
    dropout keep the channels.  The head pools to one value per channel,
    flattens, and ends in [nn.Linear(in_features, out_features)], which
    refuses any other number of features.  What a stage refuses for the
    channels of its input is raised here; what it refuses for the spatial
    extents of its input (a pooling window larger than the map) is not: a
    result [Ok] says that the channel counts fit, not that the program
    returns. *)
Definition apply_stage (layer : stage) (x : tensor) : result tensor :=
  match layer with
  | Transform f => apply_transform f x
  | MaxPool2d _ _ _ => Ok x
  | Dropout _ => Ok x
  | Block blk => HarDBlock_forward blk x
  | Classifier _ in_features out_features =>
      if bool_decide (channels x = in_features) then Ok (Tensor out_features)
      else Raise (RuntimeError "mat1 and mat2 shapes cannot be multiplied")
  end.

(** [HarDNet.forward]: [for layer in self.base: x = layer(x)]. *)
Definition HarDNet_forward (self : HarDNet) (x : tensor) : result tensor :=
  foldM (λ x layer, apply_stage layer x) x (base self).

(** ** Spatial extents *)

(** The height (or width) of the output of [nn.Conv2d] on an input of
    height [size], without dilation. *)
Definition conv2d_size (size kernel stride padding : Z) : Z :=
  (size + 2 * padding - kernel) `div` stride + 1.

(** The height of what a transform returns: [conv_layer] pads by
    [kernel//2]; [dw_conv_layer] is a 3x3 convolution padded by 1;
    [comb_conv_layer] gives its kernel to the former and its stride to the
    latter. *)
Definition transform_size (f : transform) (size : Z) : Z :=
  match f with
  | conv_layer _ _ kernel stride => conv2d_size size kernel stride (kernel `div` 2)
  | dw_conv_layer _ _ stride => conv2d_size size 3 stride 1
  | comb_conv_layer _ _ kernel stride =>
      conv2d_size (conv2d_size size kernel 1 (kernel `div` 2)) 3 stride 1
  end.

(** ** Vocabulary of the statements *)

(** The link list in closed form: the layers [layer - 2^i] for the exponents
    [i] below 10 whose power of two divides [layer], by increasing [i]. *)
Definition link_of (layer : Z) : list Z :=
  (λ i, layer - 2 ^ i) <$> filter (λ i, layer `mod` 2 ^ i = 0) (range 10).

(** [v] multiplied [n] times by [grmul], one product after the other. *)
Fixpoint multiplied {num : Type} `{PyNumber num}
    (v : number num) (grmul : num) (n : nat) : result (number num) :=
  match n with
  | O => mret v
  | S n' => v' ← times_float v grmul; multiplied v' grmul n'
  end.

(** The accumulated width in the words of the specification: [growth_rate]
    multiplied by [grmul], in the arithmetic of the program, once for every
    exponent [0 < i < 10] whose power of two divides [layer]. *)
Definition accumulated_width {num : Type} `{PyNumber num}
    (layer growth_rate : Z) (grmul : num) : result (number num) :=
  multiplied (PyInt growth_rate) grmul
    (length (filter (λ i, 0 < i ∧ layer `mod` 2 ^ i = 0) (range 10))).

(** The width [get_link] gives a layer: what the scan accumulates,
    rounded. *)
Definition layer_width {num : Type} `{PyNumber num}
    (layer growth_rate : Z) (grmul : num) : result Z :=
  st ← scan layer growth_rate grmul; round_even st.1.

(** The rational a number stands for in exact arithmetic. *)
Definition value (v : number Q) : Q :=
  match v with
  | PyInt n => inject_Z n
  | PyFloat x => x
  end.

(** [resolves base_ch growth_rate grmul layer out]: the resolver returns for
    [layer], and the width it returns is [out]. *)
Definition resolves {num : Type} `{PyNumber num}
    (base_ch growth_rate : Z) (grmul : num) (layer out : Z) : Prop :=
  ∃ inch link, get_link layer base_ch growth_rate grmul = Ok (out, inch, link).

Definition sumZ (l : list Z) : Z := foldr Z.add 0 l.

(** The width the resolver returns for an index (0 where it raises). *)
Definition width_at {num : Type} `{PyNumber num}
    (base_ch growth_rate : Z) (grmul : num) (k : Z) : Z :=
  match get_link k base_ch growth_rate grmul with
  | Ok r => r.1.1
  | Raise _ => 0
  end.

(** The sum of [w i] over the indices [i] of [range(n)] that [mask] keeps. *)
Definition masked_sum (mask : Z → bool) (w : Z → Z) (n : Z) : Z :=
  sumZ (w <$> filter (λ i, mask i = true) (range n)).

(** The output selection in the words of the specification, for a block of
    [N] layers: index 0 when [keep_base] is set, index [N], and every odd
    index. *)
Definition in_mask (keep_base : bool) (N i : Z) : bool :=
  (bool_decide (i = 0) && keep_base) || bool_decide (i = N) || Z.odd i.

(** [HarDNet(depth_wise, arch, pretrained, weight_path)] in either
    arithmetic: the outcome of [__init__] on a fresh module, and the network
    as it stands when [__init__] ends. *)
Inductive arithmetic : Type := exact_rational | ieee_binary64.

Definition HarDNet_new (a : arithmetic) (env : environment) (depth_wise : bool)
    (arch : Z) (pretrained : bool) (weight_path : string) : result unit * HarDNet :=
  match a with
  | exact_rational => HarDNet_init (num := Q) env depth_wise arch pretrained weight_path new_module
  | ieee_binary64 =>
      HarDNet_init (num := float) env depth_wise arch pretrained weight_path new_module
  end.

(** An environment in which [torch.hub] exists, every download succeeds and
    every state dict fits. *)
Definition hub_environment : environment := {|
  has_hub := true;
  load_state_dict_from_url := λ url, Ok url;
  isfile := λ _, false;
  torch_load := λ path, Ok path;
  load_state_dict := λ _ _, Ok ();
|}.

(** An environment without [torch.hub] and without any weight file. *)
Definition offline_environment : environment := {|
  has_hub := false;
  load_state_dict_from_url := λ url, Ok url;
  isfile := λ _, false;
  torch_load := λ path, Ok path;
  load_state_dict := λ _ _, Ok ();
|}.

(** The block [HarDBlock(20, 10, 1.0, 4)]. *)
Definition example_block : HarDBlock :=
  mkHarDBlock false [[0]; [1; 0]; [2]; [3; 2; 0]]
    [conv_layer 20 10 3 1; conv_layer 30 10 3 1;
     conv_layer 10 10 3 1; conv_layer 40 10 3 1] 30.

(** The transform [__init__] builds for a layer of the given widths. *)
Definition transform_of (dwconv : bool) (outch inch : Z) : transform :=
  if dwconv then comb_conv_layer inch outch 1 1 else conv_layer inch outch 3 1.

(** ** The error monad *)

Lemma foldl_raise {A B : Type} (body : A → B → result A) (e : py_error) (l : list B) :
  foldl (λ acc b, a ← acc; body a b) (Raise e) l = Raise e.
Proof. induction l as [|b l IH]; [done|]. simpl. exact IH. Qed.

Lemma foldM_nil {A B : Type} (body : A → B → result A) (a : A) :
  foldM body a [] = Ok a.
Proof. done. Qed.

Lemma foldM_cons {A B : Type} (body : A → B → result A) (a : A) (b : B) (l : list B) :
  foldM body a (b :: l) = (a' ← body a b; foldM body a' l).
Proof.
  unfold foldM. simpl. destruct (body a b) as [a'|e]; simpl; [done|].
  apply foldl_raise.
Qed.

Lemma foldM_snoc {A B : Type} (body : A → B → result A) (a : A) (l : list B) (b : B) :
  foldM body a (l ++ [b]) = (a' ← foldM body a l; body a' b).
Proof. unfold foldM. rewrite foldl_app. done. Qed.

Lemma foldM_ext {A B : Type} (f g : A → B → result A) (a : A) (l : list B) :
  (∀ a b, b ∈ l → f a b = g a b) → foldM f a l = foldM g a l.
Proof.
  revert a. induction l as [|b l IH]; intros a Hfg; [done|].
  rewrite !foldM_cons, Hfg by left.
  destruct (g a b) as [a'|e]; simpl; [|done].
  apply IH. intros a'' b' Hb'. apply Hfg. by right.
Qed.

(** ** [range] *)

Lemma elem_of_range (n i : Z) : i ∈ range n ↔ 0 ≤ i < n.
Proof.
  unfold range. rewrite list_elem_of_fmap. split.
  - intros (k & -> & Hk). apply elem_of_seq in Hk. lia.
  - intros Hi. exists (Z.to_nat i). split; [lia|]. apply elem_of_seq. lia.
Qed.

Lemma length_range (n : Z) : length (range n) = Z.to_nat n.
Proof. unfold range. by rewrite length_fmap, length_seq. Qed.

Lemma range_succ (n : Z) : 0 ≤ n → range (n + 1) = range n ++ [n].
Proof.
  intros Hn. unfold range.
  replace (Z.to_nat (n + 1)) with (S (Z.to_nat n)) by lia.
  rewrite seq_S, fmap_app. simpl. do 2 f_equal. lia.
Qed.

Lemma range_nonpos (n : Z) : n ≤ 0 → range n = [].
Proof. intros Hn. unfold range. by replace (Z.to_nat n) with O by lia. Qed.

Lemma range_lookup (n : Z) (i : nat) :
  (i < Z.to_nat n)%nat → range n !! i = Some (Z.of_nat i).
Proof.
  intros Hi. unfold range. rewrite list_lookup_fmap, lookup_seq_lt by done. done.
Qed.

(** ** The link list *)

Lemma elem_of_link_of (layer k : Z) :
  k ∈ link_of layer ↔ ∃ i, 0 ≤ i < 10 ∧ layer `mod` 2 ^ i = 0 ∧ k = layer - 2 ^ i.
Proof.
  unfold link_of. rewrite list_elem_of_fmap. split.
  - intros (i & -> & Hi). apply list_elem_of_filter in Hi as [Hdiv Hi].
    apply elem_of_range in Hi. eauto.
  - intros (i & Hi & Hdiv & ->). exists i. split; [done|].
    apply list_elem_of_filter. split; [done|]. by apply elem_of_range.
Qed.

Lemma link_of_bounds (layer k : Z) : 1 ≤ layer → k ∈ link_of layer → 0 ≤ k < layer.
Proof.
  intros Hlayer (i & Hi & Hdiv & ->)%elem_of_link_of.
  assert (0 < 2 ^ i) as Hpos by (apply Z.pow_pos_nonneg; lia).
  apply Z.mod_divide in Hdiv; [|lia].
  apply Z.divide_pos_le in Hdiv; lia.
Qed.

Lemma link_of_head (layer : Z) : ∃ tl, link_of layer = (layer - 1) :: tl.
Proof.
  unfold link_of. change (range 10) with (0 :: (Z.succ <$> range 9)).
  rewrite filter_cons_True by (simpl; apply Z.mod_1_r). simpl. eauto.
Qed.

Lemma range_sorted (n : Z) : StronglySorted Z.lt (range n).
Proof.
  unfold range. generalize 0%nat as s. generalize (Z.to_nat n) as m.
  induction m as [|m IH]; intros s; simpl; constructor; [apply IH|].
  apply Forall_forall. intros k (j & -> & Hj)%list_elem_of_fmap.
  apply elem_of_seq in Hj. lia.
Qed.

Lemma filter_sorted {A : Type} (R : relation A) (P : A → Prop) `{!∀ a, Decision (P a)}
    (l : list A) :
  StronglySorted R l → StronglySorted R (filter P l).
Proof.
  induction 1 as [|a l Hl IH Ha]; [constructor|].
  rewrite filter_cons. case_decide; [|done]. constructor; [done|].
  apply Forall_forall. intros b [_ Hb]%list_elem_of_filter.
  by eapply Forall_forall in Ha.
Qed.

(** The link list runs from the nearest source to the farthest. *)
Lemma link_of_descending (layer : Z) : StronglySorted Z.gt (link_of layer).
Proof.
  unfold link_of.
  assert (StronglySorted Z.lt (filter (λ i, layer `mod` 2 ^ i = 0) (range 10))
          ∧ Forall (λ i, 0 ≤ i) (filter (λ i, layer `mod` 2 ^ i = 0) (range 10)))
    as [Hs Hnn].
  { split; [apply filter_sorted, range_sorted|].
    apply Forall_forall. intros i [_ Hi%elem_of_range]%list_elem_of_filter. lia. }
  induction Hs as [|i l Hl IH Hi]; simpl; constructor.
  - apply IH. by inversion Hnn.
  - apply Forall_fmap, Forall_forall. intros j Hj. simpl.
    eapply Forall_forall in Hi; [|done].
    inversion Hnn as [|?? Hi0 Hl0]; subst.
    assert (2 ^ i < 2 ^ j) by (apply Z.pow_lt_mono_r; lia). lia.
Qed.

Section ResolverFacts.
Context {num : Type} `{PyNumber num}.
Implicit Types (layer base_ch growth_rate : Z) (grmul : num).

Lemma scan_fold layer grmul (exps : list Z) (a a' : number num) (l0 l' : list Z) :
  foldM (scan_step layer grmul) (a, l0) exps = Ok (a', l') →
  l' = l0 ++ ((λ i, layer - 2 ^ i) <$> filter (λ i, layer `mod` 2 ^ i = 0) exps).
Proof.
  revert a l0. induction exps as [|i exps IH]; intros a l0.
  { rewrite foldM_nil. intros [= <- <-]. by rewrite app_nil_r. }
  rewrite foldM_cons, filter_cons.
  destruct (scan_step layer grmul (a, l0) i) as [[a1 l1]|e] eqn:Hstep; simpl; [|done].
  intros ->%IH. unfold scan_step in Hstep.
  case_bool_decide as Hdiv.
  - rewrite decide_True by done.
    assert (l1 = l0 ++ [layer - 2 ^ i]) as ->.
    { case_bool_decide; [destruct (times_float a grmul)|]; simpl in Hstep;
        by inversion Hstep. }
    simpl. by rewrite <- app_assoc.
  - rewrite decide_False by done. by inversion Hstep.
Qed.

(** The list the scan builds is [link_of], whatever the arithmetic. *)
Lemma scan_link layer growth_rate grmul (raw : number num) (link : list Z) :
  scan layer growth_rate grmul = Ok (raw, link) → link = link_of layer.
Proof. unfold scan. by intros ->%scan_fold. Qed.

Lemma scan_fold_width layer grmul (exps : list Z) (a : number num) (l0 : list Z) :
  (st ← foldM (scan_step layer grmul) (a, l0) exps; mret st.1)
  = multiplied a grmul (length (filter (λ i, 0 < i ∧ layer `mod` 2 ^ i = 0) exps)).
Proof.
  revert a l0. induction exps as [|i exps IH]; intros a l0; [done|].
  rewrite foldM_cons, filter_cons. unfold scan_step.
  case_bool_decide as Hdiv; [case_bool_decide as Hi|].
  - rewrite decide_True by done. simpl length. cbn [multiplied].
    destruct (times_float a grmul) as [a1|e]; simpl; [apply IH|done].
  - rewrite decide_False by (intros []; lia). simpl. apply IH.
  - rewrite decide_False by (by intros []). simpl. apply IH.
Qed.

(** The width the scan accumulates is [accumulated_width]. *)
Lemma scan_width layer growth_rate grmul :
  (st ← scan layer growth_rate grmul; mret st.1)
  = accumulated_width layer growth_rate grmul.
Proof. apply scan_fold_width. Qed.

Lemma layer_width_accumulated layer growth_rate grmul :
  layer_width layer growth_rate grmul
  = (raw ← accumulated_width layer growth_rate grmul; round_even raw).
Proof.
  rewrite <- scan_width. unfold layer_width.
  by destruct (scan layer growth_rate grmul) as [[raw link]|e].
Qed.

(** Fuel beyond the layer index changes nothing. *)
Lemma get_link_rec_fuel (f1 f2 : nat) layer base_ch growth_rate grmul :
  0 ≤ layer → (Z.to_nat layer < f1)%nat → (Z.to_nat layer < f2)%nat →
  get_link_rec f1 layer base_ch growth_rate grmul
  = get_link_rec f2 layer base_ch growth_rate grmul.
Proof.
  revert f2 layer. induction f1 as [|f1 IH]; intros f2 layer Hl H1 H2; [lia|].
  destruct f2 as [|f2]; [lia|]. cbn [get_link_rec].
  case_bool_decide as Hz; [done|].
  destruct (scan layer growth_rate grmul) as [[raw link]|e] eqn:Hscan; simpl; [|done].
  apply scan_link in Hscan as ->.
  destruct (round_even raw) as [out|e]; simpl; [|done].
  unfold sum_links.
  rewrite (foldM_ext _ (λ in_channels i,
    r ← get_link_rec f2 i base_ch growth_rate grmul; mret (in_channels + r.1.1))); [done|].
  intros a k Hk. apply link_of_bounds in Hk; [|lia].
  rewrite (IH f2 k); [done|lia..].
Qed.

Lemma get_link_0 base_ch growth_rate grmul :
  get_link 0 base_ch growth_rate grmul = Ok (base_ch, 0, []).
Proof. done. Qed.

(** [get_link] on a layer of the block, with the recursive calls folded
    back into [get_link]. *)
Lemma get_link_unfold layer base_ch growth_rate grmul :
  1 ≤ layer →
  get_link layer base_ch growth_rate grmul
  = (out ← layer_width layer growth_rate grmul;
     inch ← sum_links (λ i, get_link i base_ch growth_rate grmul) (link_of layer);
     mret (out, inch, link_of layer)).
Proof.
  intros Hl. unfold get_link at 1, layer_width. cbn [get_link_rec].
  rewrite bool_decide_eq_false_2 by lia.
  destruct (scan layer growth_rate grmul) as [[raw link]|e] eqn:Hscan; simpl; [|done].
  apply scan_link in Hscan as ->.
  destruct (round_even raw) as [out|e]; simpl; [|done].
  unfold sum_links.
  rewrite (foldM_ext _ (λ in_channels i,
    r ← get_link i base_ch growth_rate grmul; mret (in_channels + r.1.1))); [done|].
  intros a k Hk. apply link_of_bounds in Hk; [|lia].
  unfold get_link. rewrite (get_link_rec_fuel _ (S (Z.to_nat k)) k); [done|lia..].
Qed.

End ResolverFacts.

(** ** What a returned triple is made of *)

Section ResolverResults.
Context {num : Type} `{PyNumber num}.
Implicit Types (layer base_ch growth_rate : Z) (grmul : num).

Lemma sum_links_from (rec : Z → result (Z * Z * list Z)) (link : list Z) (a inch : Z) :
  foldM (λ in_channels i, r ← rec i; mret (in_channels + r.1.1)) a link = Ok inch
  ↔ ∃ ws, Forall2 (λ k w, ∃ i l, rec k = Ok (w, i, l)) link ws ∧ inch = a + sumZ ws.
Proof.
  revert a. induction link as [|k link IH]; intros a.
  - rewrite foldM_nil. split.
    + intros [= <-]. exists []. split; [constructor|]. simpl. lia.
    + intros (ws & Hws & ->). apply Forall2_nil_inv_l in Hws as ->. simpl.
      f_equal. lia.
  - rewrite foldM_cons. destruct (rec k) as [[[w i] l]|e] eqn:Hk; simpl.
    + rewrite IH. split.
      * intros (ws & Hws & ->). exists (w :: ws). split; [|simpl; lia].
        constructor; [|done]. eauto.
      * intros (ws & Hws & ->).
        apply Forall2_cons_inv_l in Hws as (w' & ws' & (i' & l' & Hw') & Hws' & ->).
        rewrite Hk in Hw'. simplify_eq. exists ws'. split; [done|]. simpl. lia.
    + split; [done|]. intros (ws & Hws & _).
      apply Forall2_cons_inv_l in Hws as (w' & ws' & (i' & l' & Hw') & _).
      by rewrite Hk in Hw'.
Qed.

Lemma sum_links_Ok (rec : Z → result (Z * Z * list Z)) (link : list Z) (inch : Z) :
  sum_links rec link = Ok inch
  ↔ ∃ ws, Forall2 (λ k w, ∃ i l, rec k = Ok (w, i, l)) link ws ∧ inch = sumZ ws.
Proof. unfold sum_links. rewrite sum_links_from. by setoid_rewrite Z.add_0_l. Qed.

(** A triple returned for a layer of the block: the link list is
    [link_of], the width is the rounded scan, and the input width adds up
    the widths the resolver returns for the linked layers. *)
Lemma get_link_Ok layer base_ch growth_rate grmul (out inch : Z) (link : list Z) :
  1 ≤ layer →
  get_link layer base_ch growth_rate grmul = Ok (out, inch, link)
  ↔ link = link_of layer
    ∧ layer_width layer growth_rate grmul = Ok out
    ∧ ∃ ws, Forall2 (resolves base_ch growth_rate grmul) link ws ∧ inch = sumZ ws.
Proof.
  intros Hl. rewrite get_link_unfold by done.
  destruct (layer_width _ _ _) as [out'|e]; simpl.
  - destruct (sum_links _ _) as [inch'|e] eqn:Hsum; simpl.
    + apply sum_links_Ok in Hsum as (ws & Hws & ->). split.
      * intros [= <- <- <-]. eauto.
      * intros (-> & [= <-] & ws' & Hws' & ->). do 3 f_equal.
        clear -Hws Hws'. revert ws' Hws'.
        induction Hws as [|k w link ws (i & l & Hk) _ IH]; intros ws' Hws'.
        { by apply Forall2_nil_inv_l in Hws' as ->. }
        apply Forall2_cons_inv_l in Hws' as (w' & ws'' & (i' & l' & Hk') & Hws'' & ->).
        rewrite Hk in Hk'. simplify_eq. simpl. f_equal. by apply IH.
    + split; [done|]. intros (-> & _ & ws & Hws & ->).
      assert (sum_links (λ i, get_link i base_ch growth_rate grmul) (link_of layer)
              = Ok (sumZ ws)) as Hok by (apply sum_links_Ok; eauto).
      by rewrite Hsum in Hok.
  - split; [done|]. by intros (_ & ? & _).
Qed.

(** What the rounding returns is twice an integer. *)
Lemma round_even_Ok (raw : number num) (out : Z) :
  round_even raw = Ok out
  ↔ ∃ s n h m,
      plus_one raw = Ok s ∧ to_int s = Ok n ∧ num_half n = Ok h ∧ num_int h = Ok m
      ∧ out = m * 2.
Proof.
  unfold round_even. split.
  - destruct (plus_one raw) as [s|e]; simpl; [|done].
    destruct (to_int s) as [n|e] eqn:Hn; simpl; [|done].
    destruct (num_half n) as [h|e] eqn:Hh; simpl; [|done].
    destruct (num_int h) as [m|e] eqn:Hm; simpl; [|done].
    intros [= <-]. by exists s, n, h, m.
  - intros (s & n & h & m & -> & Hn & Hh & Hm & ->). simpl.
    rewrite Hn. simpl. rewrite Hh. simpl. by rewrite Hm.
Qed.

End ResolverResults.

(** ** Exact arithmetic *)

Section ExactFacts.
Import Exact.
Implicit Types (layer base_ch growth_rate : Z) (grmul x : Q).

(** In exact arithmetic the scan never raises. *)
Lemma scan_exact layer growth_rate grmul :
  ∃ raw, scan layer growth_rate grmul = Ok (raw, link_of layer).
Proof.
  assert (∀ exps (a : number Q) l0, ∃ st,
            foldM (scan_step layer grmul) (a, l0) exps = Ok st) as Hall.
  { induction exps as [|i exps IH]; intros a l0; [by eexists|].
    rewrite foldM_cons. unfold scan_step.
    case_bool_decide; [case_bool_decide|]; [destruct a|..]; simpl; apply IH. }
  destruct (Hall (range 10) (PyInt growth_rate) []) as [[raw link] Hscan].
  exists raw. fold (scan layer growth_rate grmul) in Hscan.
  by rewrite Hscan, (scan_link _ _ _ _ _ Hscan).
Qed.

Lemma round_even_exact (v : number Q) :
  round_even v = Ok (Qtrunc (inject_Z (Qtrunc (value v + 1)) / 2) * 2).
Proof.
  destruct v as [n|x]; [|done].
  unfold round_even. simpl. do 4 f_equal.
  unfold Qtrunc. simpl. by rewrite !Z.mul_1_r, Z.quot_1_r.
Qed.

(** Every layer from 0 on resolves. *)
Lemma get_link_total layer base_ch growth_rate grmul :
  0 ≤ layer → ∃ out, resolves base_ch growth_rate grmul layer out.
Proof.
  revert layer. apply (Zlt_0_ind (λ layer, ∃ out, resolves _ _ _ layer out)).
  intros layer IH Hl.
  destruct (decide (layer = 0)) as [->|Hnz].
  { exists base_ch, 0, []. apply get_link_0. }
  assert (∃ ws, Forall2 (resolves base_ch growth_rate grmul) (link_of layer) ws)
    as [ws Hws].
  { assert (Forall (λ k, 0 ≤ k < layer) (link_of layer)) as Hb.
    { apply Forall_forall. intros k. apply link_of_bounds. lia. }
    induction Hb as [|k link Hk _ [ws Hws]]; [by exists []|].
    destruct (IH k Hk) as [w Hw]. exists (w :: ws). by constructor. }
  destruct (scan_exact layer growth_rate grmul) as [raw Hscan].
  eexists _, (sumZ ws), (link_of layer).
  apply get_link_Ok; [lia|]. split; [done|]. split; [|eauto].
  unfold layer_width. rewrite Hscan. apply round_even_exact.
Qed.

Lemma Qtrunc_floor x : (0 <= x)%Q → Qtrunc x = Qfloor x.
Proof.
  destruct x as [n d]. unfold Qle, Qtrunc, Qfloor. simpl. intros Hn.
  apply Z.quot_div_nonneg; lia.
Qed.

Lemma Qfloor_half x : Qfloor (x / 2) = Qfloor x `div` 2.
Proof.
  destruct x as [n d]. unfold Qfloor, Qdiv, Qmult, Qinv. simpl.
  rewrite Z.mul_1_r, Pos2Z.inj_mul. symmetry. apply Z.div_div; lia.
Qed.

Lemma Qfloor_succ x : Qfloor (x + 1) = Qfloor x + 1.
Proof.
  destruct x as [n d]. unfold Qfloor, Qplus. simpl.
  rewrite Z.mul_1_r, Pos.mul_1_r. apply Z.div_add. lia.
Qed.

Lemma Qfloor_nonneg x : (0 <= x)%Q → 0 ≤ Qfloor x.
Proof. intros Hx. rewrite <- (Qfloor_Z 0). by apply Qfloor_resp_le. Qed.

(** On a width that is not negative both truncations are floors, and the
    inner one can be dropped. *)
Lemma round_even_floor (v : number Q) :
  (0 <= value v)%Q → round_even v = Ok (Qfloor ((value v + 1) / 2) * 2).
Proof.
  intros Hx. rewrite round_even_exact. do 2 f_equal.
  rewrite (Qtrunc_floor (value v + 1)) by lra.
  assert (0 ≤ Qfloor (value v + 1)) as Hn by (apply Qfloor_nonneg; lra).
  rewrite Qtrunc_floor.
  - by rewrite !Qfloor_half, Qfloor_Z.
  - assert (0 <= inject_Z (Qfloor (value v + 1)))%Q
      by (change 0%Q with (inject_Z 0); by rewrite <- Zle_Qle).
    apply Qle_shift_div_l; lra.
Qed.

Lemma multiplied_exact (v : number Q) grmul (n : nat) :
  ∃ v', multiplied v grmul n = Ok v' ∧ (value v' == value v * grmul ^ Z.of_nat n)%Q.
Proof.
  revert v. induction n as [|n IH]; intros v.
  { exists v. split; [done|]. simpl. ring. }
  cbn [multiplied].
  assert (∃ v1, times_float v grmul = Ok v1 ∧ (value v1 == value v * grmul)%Q)
    as (v1 & -> & Hv1) by (destruct v; eexists; split; done).
  destruct (IH v1) as (v' & Hv' & Hval). exists v'. split; [done|].
  rewrite Hval, Hv1, Nat2Z.inj_succ, <- Z.add_1_l, Qpower_plus' by lia.
  rewrite Qpower_1_r. ring.
Qed.

(** When no operation on floats rounds, which is exact arithmetic, and
    neither the growth rate nor the multiplier is negative: the scan
    accumulates [raw = growth_rate * grmul^n], [n] counting the exponents
    [0 < i < 10] with [2^i] dividing [layer], the width returned is
    [floor((raw + 1) / 2) * 2], and it is the least even integer greater
    than or equal to [floor(raw)]. *)
Lemma exact_out_channels layer base_ch growth_rate grmul :
  1 ≤ layer → 0 ≤ growth_rate → (0 <= grmul)%Q →
  let n := length (filter (λ i, 0 < i ∧ layer `mod` 2 ^ i = 0) (range 10)) in
  ∃ raw out inch link,
    accumulated_width layer growth_rate grmul = Ok raw
    ∧ (value raw == inject_Z growth_rate * grmul ^ Z.of_nat n)%Q
    ∧ get_link layer base_ch growth_rate grmul = Ok (out, inch, link)
    ∧ out = Qfloor ((value raw + 1) / 2) * 2
    ∧ Qfloor (value raw) ≤ out ≤ Qfloor (value raw) + 1.
Proof.
  intros Hl Hg Hm n.
  destruct (multiplied_exact (PyInt growth_rate) grmul n) as (raw & Hraw & Hval).
  destruct (get_link_total layer base_ch growth_rate grmul) as (out & inch & link & Hr);
    [lia|].
  exists raw, out, inch, link. split; [done|]. split; [done|]. split; [done|].
  apply get_link_Ok in Hr as (_ & Hout & _); [|done].
  rewrite layer_width_accumulated in Hout. unfold accumulated_width in Hout.
  fold n in Hout. rewrite Hraw in Hout. simpl in Hout.
  assert (0 <= value raw)%Q as Hnn.
  { rewrite Hval. apply Qmult_le_0_compat; [|by apply Qpower_0_le].
    simpl. change 0%Q with (inject_Z 0). by rewrite <- Zle_Qle. }
  rewrite round_even_floor in Hout by done.
  assert (out = Qfloor ((value raw + 1) / 2) * 2) as -> by congruence.
  split; [done|]. rewrite Qfloor_half, Qfloor_succ.
  pose proof (Z.div_mod (Qfloor (value raw) + 1) 2 ltac:(lia)) as Hdm.
  pose proof (Z.mod_pos_bound (Qfloor (value raw) + 1) 2 ltac:(lia)) as Hmb.
  lia.
Qed.

End ExactFacts.

(** ** Halving an integer *)

Lemma digits2_pos_bounds (p : positive) :
  2 ^ (Z.pos (digits2_pos p) - 1) ≤ Z.pos p < 2 ^ Z.pos (digits2_pos p).
Proof.
  induction p as [p IH|p IH|]; simpl digits2_pos; [| |by vm_compute].
  - rewrite Pos2Z.inj_succ.
    replace (Z.succ (Z.pos (digits2_pos p)) - 1)
      with (Z.succ (Z.pos (digits2_pos p) - 1)) by lia.
    rewrite !Z.pow_succ_r by lia. lia.
  - rewrite Pos2Z.inj_succ.
    replace (Z.succ (Z.pos (digits2_pos p)) - 1)
      with (Z.succ (Z.pos (digits2_pos p) - 1)) by lia.
    rewrite !Z.pow_succ_r by lia. lia.
Qed.

Lemma iter_xO (p k : positive) :
  Z.pos (Pos.iter xO p k) = Z.pos p * 2 ^ Z.pos k
  ∧ digits2_pos (Pos.iter xO p k) = (digits2_pos p + k)%positive.
Proof.
  induction k as [|k IH] using Pos.peano_ind.
  - simpl. split; [lia|]. by rewrite Pos.add_1_r.
  - rewrite Pos.iter_succ. destruct IH as [IH1 IH2]. split.
    + rewrite Pos2Z.inj_xO, IH1, Pos2Z.inj_succ, Z.pow_succ_r by lia. lia.
    + simpl. rewrite IH2. lia.
Qed.

(** An integer of at most 53 bits times [2^-1] is a float of binary64:
    the mantissa is the integer shifted to 53 bits, and nothing is rounded
    off. *)
Lemma binary_round_half (s : bool) (p : positive) :
  Z.pos p < 2 ^ 53 →
  ∃ m e,
    binary_round prec emax s p (-1) = S754_finite s m e
    ∧ valid_binary (S754_finite s m e) = true
    ∧ e < 0
    ∧ Z.pos m `div` 2 ^ (- e) = Z.pos p `div` 2.
Proof.
  intros Hp. pose proof (digits2_pos_bounds p) as [Hlo Hhi].
  set (d := digits2_pos p) in *.
  assert (Z.pos d ≤ 53) as Hd.
  { destruct (Z.le_gt_cases (Z.pos d) 53) as [|Hgt]; [done|].
    assert (2 ^ 53 ≤ 2 ^ (Z.pos d - 1)) by (apply Z.pow_le_mono_r; lia). lia. }
  assert (∃ mz, shl_align p (-1) (fexp prec emax (Z.pos d + -1)) = (mz, Z.pos d - 54)
                ∧ Z.pos mz = Z.pos p * 2 ^ (53 - Z.pos d)
                ∧ Z.pos (digits2_pos mz) = 53) as (mz & Halign & Hmz & Hdig).
  { assert (fexp prec emax (Z.pos d + -1) = Z.pos d - 54) as ->.
    { unfold fexp, emin, prec, emax. lia. }
    unfold shl_align.
    destruct (Z.pos d - 54 - -1) as [|k|k] eqn:Hk; [|lia|].
    - exists p. replace (Z.pos d - 54) with (-1) by lia. split; [done|].
      replace (53 - Z.pos d) with 0 by lia. fold d. rewrite Z.pow_0_r. lia.
    - exists (Pos.iter xO p k). destruct (iter_xO p k) as [H1 H2]. split; [done|].
      rewrite H1, H2. fold d. split; [|lia].
      by replace (53 - Z.pos d) with (Z.pos k) by lia. }
  exists mz, (Z.pos d - 54).
  assert (fexp prec emax (53 + (Z.pos d - 54)) = Z.pos d - 54) as Hfexp.
  { unfold fexp, emin, prec, emax. lia. }
  split; [|split; [|split]].
  - unfold binary_round. fold d. rewrite Halign.
    unfold binary_round_aux, shr_fexp. simpl Zdigits2. rewrite Hdig, Hfexp.
    rewrite Z.sub_diag. simpl. rewrite Hdig, Hfexp, Z.sub_diag. simpl.
    by rewrite (proj2 (Z.leb_le _ _)) by (unfold emax, prec; lia).
  - unfold SpecFloat.valid_binary, bounded, canonical_mantissa.
    rewrite Hdig, Hfexp, Z.eqb_refl. simpl.
    apply Z.leb_le. unfold emax, prec. lia.
  - lia.
  - rewrite Hmz. replace (- (Z.pos d - 54)) with (Z.succ (53 - Z.pos d)) by lia.
    rewrite Z.pow_succ_r by lia. apply Z.div_mul_cancel_r; [lia|].
    apply Z.pow_nonzero; lia.
Qed.

(** Binary64 halves exactly. *)
#[global] Instance binary64_halves : ExactHalves float.
Proof.
  intros n Hn. cbn [num_half num_int Binary64.binary64_number].
  destruct n as [|p|p]; [by vm_compute| |].
  - destruct (binary_round_half false p) as (m & e & Hr & Hv & He & Hdiv); [lia|].
    cbn [binary_normalize]. rewrite Hr. cbn [Binary64.finite].
    unfold mbind, result_bind, Binary64.to_Z. rewrite Prim2SF_SF2Prim by done.
    rewrite bool_decide_eq_false_2 by lia. rewrite Hdiv. f_equal.
    symmetry. apply Z.quot_div_nonneg; lia.
  - destruct (binary_round_half true p) as (m & e & Hr & Hv & He & Hdiv); [lia|].
    cbn [binary_normalize]. rewrite Hr. cbn [Binary64.finite].
    unfold mbind, result_bind, Binary64.to_Z. rewrite Prim2SF_SF2Prim by done.
    rewrite bool_decide_eq_false_2 by lia. rewrite Hdiv. f_equal.
    change (Z.neg p) with (- Z.pos p). rewrite Z.quot_opp_l by lia. f_equal.
    symmetry. apply Z.quot_div_nonneg; lia.
Qed.

(** So does exact arithmetic, for every integer. *)
#[global] Instance exact_halves : ExactHalves Q.
Proof.
  intros n _. cbn. unfold Exact.Qtrunc. simpl.
  by rewrite !Z.mul_1_r.
Qed.

(** ** The resolver: link lists and widths *)

(** The link list of a returned triple lies below the layer, whatever the
    arithmetic. *)
Lemma get_link_link_bounds {num : Type} `{PyNumber num}
    (layer base_ch growth_rate : Z) (grmul : num) (out inch : Z) (link : list Z) :
  1 ≤ layer →
  get_link layer base_ch growth_rate grmul = Ok (out, inch, link) →
  Forall (λ k, 0 ≤ k < layer) link.
Proof.
  intros Hl (-> & _)%get_link_Ok; [|done].
  apply Forall_forall. intros k. by apply link_of_bounds.
Qed.

(** C5: for every layer [1 <= layer] and every configuration the resolver
    returns, and every index of the returned link list is a non-negative
    integer strictly below [layer].  (Stated in exact arithmetic, where the
    resolver always returns; [get_link_link_bounds] is the bound for a triple
    returned in any arithmetic.) *)
Theorem link_indices_below_layer (layer base_ch growth_rate : Z) (grmul : Q) :
  1 ≤ layer →
  ∃ out inch link,
    get_link layer base_ch growth_rate grmul = Ok (out, inch, link)
    ∧ Forall (λ k, 0 ≤ k < layer) link.
Proof.
  intros Hl.
  destruct (get_link_total layer base_ch growth_rate grmul) as (out & inch & link & Hr);
    [lia|].
  exists out, inch, link. split; [done|]. exact (get_link_link_bounds _ _ _ _ _ _ _ Hl Hr).
Qed.

Lemma link_indices_below_layer_witness :
  1 ≤ 8
  ∧ ∃ out inch link,
      get_link 8 64 14 (17 # 10)%Q = Ok (out, inch, link)
      ∧ Forall (λ k, 0 ≤ k < 8) link.
Proof. split; [lia | apply (link_indices_below_layer 8 64 14 (17 # 10)%Q); lia]. Defined.

(** C2, refuted as stated: for layer 4 the resolver returns the link list
    [3; 2; 0], which is neither [0; 2; 3] nor in ascending order. *)
Lemma link_list_not_ascending :
  get_link 4 20 10 1%Q = Ok (10, 40, [3; 2; 0])
  ∧ [3; 2; 0] ≠ [0; 2; 3]
  ∧ ¬ Sorted Z.le [3; 2; 0].
Proof.
  split; [by vm_compute|]. split; [done|].
  intros Hs. inversion Hs as [|?? _ Hhd]; subst. inversion Hhd; subst. lia.
Qed.

(** C2, amended: for every layer [1 <= layer] and every configuration the
    link list the resolver returns is in strictly descending order of layer
    index; for layer 4 it is [3; 2; 0]. *)
Theorem link_list_descending (layer base_ch growth_rate : Z) (grmul : Q) :
  1 ≤ layer →
  (∃ out inch link,
     get_link layer base_ch growth_rate grmul = Ok (out, inch, link)
     ∧ StronglySorted Z.gt link)
  ∧ (∃ out inch, get_link 4 base_ch growth_rate grmul = Ok (out, inch, [3; 2; 0])).
Proof.
  intros Hl. split.
  - destruct (get_link_total layer base_ch growth_rate grmul)
      as (out & inch & link & Hr); [lia|].
    exists out, inch, link. split; [done|].
    apply get_link_Ok in Hr as (-> & _); [|done]. apply link_of_descending.
  - destruct (get_link_total 4 base_ch growth_rate grmul)
      as (out & inch & link & Hr); [lia|].
    exists out, inch. apply get_link_Ok in Hr as Hr'; [|lia].
    destruct Hr' as (-> & _). exact Hr.
Qed.

Lemma link_list_descending_witness :
  1 ≤ 8
  ∧ (∃ out inch link,
       get_link 8 64 14 (17 # 10)%Q = Ok (out, inch, link)
       ∧ StronglySorted Z.gt link)
  ∧ (∃ out inch, get_link 4 64 14 (17 # 10)%Q = Ok (out, inch, [3; 2; 0])).
Proof. split; [lia | apply (link_list_descending 8 64 14 (17 # 10)%Q); lia]. Defined.

(** C6: for every layer [1 <= layer] and every configuration, the input
    width the resolver returns is the sum, over the indices of the returned
    link list, of the output widths the resolver returns for them; for index
    0 that width is [base_ch].  (Stated in exact arithmetic; [get_link_Ok] is
    the same decomposition of a triple returned in any arithmetic.) *)
Theorem in_channels_sum_of_link_widths (layer base_ch growth_rate : Z) (grmul : Q) :
  1 ≤ layer →
  ∃ out inch link,
    get_link layer base_ch growth_rate grmul = Ok (out, inch, link)
    ∧ (∃ widths,
         Forall2 (λ k w, ∃ inch_k link_k,
                    get_link k base_ch growth_rate grmul = Ok (w, inch_k, link_k))
                 link widths
         ∧ inch = sumZ widths)
    ∧ get_link 0 base_ch growth_rate grmul = Ok (base_ch, 0, []).
Proof.
  intros Hl.
  destruct (get_link_total layer base_ch growth_rate grmul) as (out & inch & link & Hr);
    [lia|].
  exists out, inch, link. split; [done|]. split; [|done].
  apply get_link_Ok in Hr as (_ & _ & ws & Hws & ->); [|done]. by exists ws.
Qed.

Lemma in_channels_sum_of_link_widths_witness :
  1 ≤ 8
  ∧ ∃ out inch link,
      get_link 8 64 14 (17 # 10)%Q = Ok (out, inch, link)
      ∧ (∃ widths,
           Forall2 (λ k w, ∃ inch_k link_k,
                      get_link k 64 14 (17 # 10)%Q = Ok (w, inch_k, link_k))
                   link widths
           ∧ inch = sumZ widths)
      ∧ get_link 0 64 14 (17 # 10)%Q = Ok (64, 0, []).
Proof.
  split; [lia | apply (in_channels_sum_of_link_widths 8 64 14 (17 # 10)%Q); lia].
Defined.

(** C3, refuted as stated.  With [growth_rate = 7] and [grmul = 1.5] layer 2
    accumulates 10.5 and is given the width 10, which is below 10.5, in
    binary64 and in exact arithmetic alike.  Nor is the width
    [floor((raw + 1) / 2) * 2] in real numbers: with [growth_rate = 45] and
    [grmul = 1.4] the product is 63 and the formula gives 64, where the
    floats accumulate a width just below 63 and layer 2 is given 62; with
    [growth_rate = 1] and [grmul = 1 - 2^-53] the floats accumulate exactly
    [1 - 2^-53], for which the formula gives 0, and layer 2 is given 2,
    because the float sum [raw + 1] is 2. *)
Lemma out_channels_below_raw :
  (get_link (num := float) 2 20 7 (num_literal (3 # 2)) = Ok (10, 28, [1; 0])
   ∧ ∃ raw,
       accumulated_width (num := float) 2 7 (num_literal (3 # 2)) = Ok (PyFloat raw)
       ∧ (Binary64.to_Q raw == 21 # 2)%Q
       ∧ ¬ (Binary64.to_Q raw <= inject_Z 10)%Q)
  ∧ (get_link 2 20 7 (3 # 2)%Q = Ok (10, 28, [1; 0])
     ∧ ∃ raw,
         accumulated_width 2 7 (3 # 2)%Q = Ok raw
         ∧ (value raw == 21 # 2)%Q
         ∧ ¬ (value raw <= inject_Z 10)%Q)
  ∧ (get_link (num := float) 2 64 45 (num_literal (14 # 10)) = Ok (62, 110, [1; 0])
     ∧ (inject_Z 45 * (14 # 10) == 63)%Q
     ∧ Qfloor ((63 + 1) / 2) * 2 = 64)
  ∧ (∃ grmul raw inch,
       grmul = num_literal (9007199254740991 # 9007199254740992)
       ∧ get_link (num := float) 2 20 1 grmul = Ok (2, inch, [1; 0])
       ∧ accumulated_width (num := float) 2 1 grmul = Ok (PyFloat raw)
       ∧ (Binary64.to_Q raw == 9007199254740991 # 9007199254740992)%Q
       ∧ Qfloor ((Binary64.to_Q raw + 1) / 2) * 2 = 0).
Proof.
  split; [split; [vm_compute; reflexivity|]|].
  { eexists. split; [vm_compute; reflexivity|]. split; by vm_compute. }
  split; [split; [vm_compute; reflexivity|]|].
  { eexists. split; [vm_compute; reflexivity|]. split; by vm_compute. }
  split; [split; [vm_compute; reflexivity|]; split; by vm_compute|].
  eexists _, _, _. split; [reflexivity|].
  split; [vm_compute; reflexivity|]. split; [vm_compute; reflexivity|].
  split; by vm_compute.
Qed.

(** C3, amended: for every layer [1 <= layer] and every configuration for
    which the resolver returns, in any arithmetic of the floats that halves
    exactly (binary64 and exact arithmetic do), the width returned is
    [int(int(raw + 1) / 2) * 2] as the program computes it: [raw] is
    [growth_rate] multiplied by [grmul], in the arithmetic of the program,
    once for every exponent [0 < i < 10] with [2^i] dividing [layer]; [n]
    is [int(raw + 1)], [h] is [n / 2], [m] is [int(h)] and the width is
    [m * 2], an even integer.  When [n] has at most 53 bits the width is
    [n] rounded toward zero to an even integer. *)
Theorem out_channels_rounding {num : Type} `{!PyNumber num} `{!ExactHalves num}
    (layer base_ch growth_rate : Z) (grmul : num) (out inch : Z) (link : list Z) :
  1 ≤ layer →
  get_link layer base_ch growth_rate grmul = Ok (out, inch, link) →
  ∃ raw s n h m,
    accumulated_width layer growth_rate grmul = Ok raw
    ∧ plus_one raw = Ok s
    ∧ to_int s = Ok n
    ∧ num_half n = Ok h
    ∧ num_int h = Ok m
    ∧ out = m * 2
    ∧ Z.even out = true
    ∧ (Z.abs n < 2 ^ 53 → out = n `quot` 2 * 2).
Proof.
  intros Hl (_ & Hout & _)%get_link_Ok; [|done].
  rewrite layer_width_accumulated in Hout.
  destruct (accumulated_width layer growth_rate grmul) as [raw|e]; simpl in Hout; [|done].
  apply round_even_Ok in Hout as (s & n & h & m & Hs & Hn & Hh & Hm & ->).
  exists raw, s, n, h, m. repeat split; try done.
  - by rewrite Z.even_mul, orb_true_r.
  - intros Hbits%half_exact. rewrite Hh in Hbits. simpl in Hbits. congruence.
Qed.

Lemma out_channels_rounding_witness :
  1 ≤ 4
  ∧ get_link (num := float) 4 64 14 (num_literal (17 # 10)) = Ok (40, 102, [3; 2; 0])
  ∧ ∃ raw s n h m,
      accumulated_width (num := float) 4 14 (num_literal (17 # 10)) = Ok raw
      ∧ plus_one raw = Ok s
      ∧ to_int s = Ok n
      ∧ num_half n = Ok h
      ∧ num_int h = Ok m
      ∧ 40 = m * 2
      ∧ Z.even 40 = true
      ∧ (Z.abs n < 2 ^ 53 → 40 = n `quot` 2 * 2).
Proof.
  split; [lia|]. split; [vm_compute; reflexivity|].
  apply (out_channels_rounding (num := float) 4 64 14 (num_literal (17 # 10))
           40 102 [3; 2; 0]); [lia | vm_compute; reflexivity].
Defined.

(** ** Lists and sums *)

Lemma sumZ_app (l1 l2 : list Z) : sumZ (l1 ++ l2) = sumZ l1 + sumZ l2.
Proof. induction l1 as [|a l1 IH]; simpl; [done|]. rewrite IH. lia. Qed.

Lemma filter_ext_in {A : Type} (P Q : A → Prop)
    `{!∀ a, Decision (P a)} `{!∀ a, Decision (Q a)} (l : list A) :
  (∀ a, a ∈ l → P a ↔ Q a) → filter P l = filter Q l.
Proof.
  induction l as [|a l IH]; intros HPQ; [done|].
  rewrite !filter_cons, IH by (intros b Hb; apply HPQ; by right).
  destruct (HPQ a) as [H1 H2]; [by left|].
  destruct (decide (P a)), (decide (Q a)); tauto || done.
Qed.

Lemma masked_sum_succ (mask : Z → bool) (w : Z → Z) (n : Z) :
  0 ≤ n →
  masked_sum mask w (n + 1) = masked_sum mask w n + (if mask n then w n else 0).
Proof.
  intros Hn. unfold masked_sum.
  rewrite range_succ, filter_app, fmap_app, sumZ_app by done. f_equal.
  rewrite filter_cons, filter_nil.
  destruct (mask n); [rewrite decide_True by done|rewrite decide_False by done];
    simpl; lia.
Qed.

Lemma masked_sum_0 (mask : Z → bool) (w : Z → Z) : masked_sum mask w 0 = 0.
Proof. done. Qed.

Lemma masked_sum_ext (m1 m2 : Z → bool) (w1 w2 : Z → Z) (n : Z) :
  (∀ i, 0 ≤ i < n → m1 i = m2 i ∧ w1 i = w2 i) →
  masked_sum m1 w1 n = masked_sum m2 w2 n.
Proof.
  intros Hext. unfold masked_sum.
  rewrite (filter_ext_in _ (λ i, m2 i = true)).
  - f_equal. apply list_fmap_ext. intros j i Hi%list_elem_of_lookup_2.
    apply list_elem_of_filter in Hi as [_ Hi%elem_of_range]. by apply Hext.
  - intros i Hi%elem_of_range. destruct (Hext i Hi) as [-> _]. done.
Qed.

(** Index 0 apart, a sum over the indices [0..n] is a sum over the loop
    indices [0..n-1] of [__init__], shifted by one. *)
Lemma masked_sum_shift (mask : Z → bool) (w : Z → Z) (n : Z) :
  0 ≤ n →
  masked_sum mask w (n + 1)
  = (if mask 0 then w 0 else 0)
    + masked_sum (λ i, mask (i + 1)) (λ i, w (i + 1)) n.
Proof.
  revert n. apply natlike_ind.
  - rewrite (masked_sum_succ mask w 0), !masked_sum_0 by done. lia.
  - intros n Hn IH. unfold Z.succ.
    rewrite masked_sum_succ, IH by lia.
    rewrite (masked_sum_succ (λ i, mask (i + 1))) by done. cbv beta. lia.
Qed.

(** ** [getitem] *)

Lemma getitem_lookup {A : Type} (l : list A) (j : Z) (a : A) :
  0 ≤ j → l !! Z.to_nat j = Some a → getitem l j = Ok a.
Proof.
  intros Hj Ha. unfold getitem. cbv zeta.
  apply lookup_lt_Some in Ha as Hlt.
  rewrite (bool_decide_eq_false_2 (j < 0)) by lia.
  rewrite bool_decide_eq_true_2 by lia. by rewrite Ha.
Qed.

Lemma getitem_fmap_range {A : Type} (f : Z → A) (t k : Z) :
  0 ≤ k < t → getitem (f <$> range t) k = Ok (f k).
Proof.
  intros Hk. apply getitem_lookup; [lia|].
  rewrite list_lookup_fmap, range_lookup by lia. simpl. f_equal. f_equal. lia.
Qed.

(** ** Building a block *)

Section BlockFacts.
Context {num : Type} `{PyNumber num}.
Variables (in_channels growth_rate : Z) (grmul : num) (n_layers : Z) (dwconv : bool).

Local Abbreviation w := (width_at in_channels growth_rate grmul).
Local Abbreviation resolver k := (get_link k in_channels growth_rate grmul).

Lemma width_at_Ok (k out inch : Z) (link : list Z) :
  resolver k = Ok (out, inch, link) → w k = out.
Proof. unfold width_at. by intros ->. Qed.

Lemma width_at_0 : w 0 = in_channels.
Proof. done. Qed.

(** The state of the loop of [__init__] after [n] iterations. *)
Lemma init_loop (n : Z) (ls : list (list Z)) (ys : list transform) (oc : Z) :
  foldM (init_step in_channels growth_rate grmul n_layers dwconv) ([], [], 0) (range n)
  = Ok (ls, ys, oc) →
  length ls = Z.to_nat n
  ∧ length ys = Z.to_nat n
  ∧ (∀ j, 0 ≤ j < n → ∃ out inch link,
        resolver (j + 1) = Ok (out, inch, link)
        ∧ ls !! Z.to_nat j = Some link
        ∧ ys !! Z.to_nat j = Some (transform_of dwconv out inch))
  ∧ oc = masked_sum (counted n_layers) (λ i, w (i + 1)) n.
Proof.
  destruct (Z.le_gt_cases 0 n) as [Hn|Hn]; cycle 1.
  { assert (range n = []) as Hnil by (apply range_nonpos; lia).
    unfold masked_sum. rewrite Hnil, foldM_nil. intros [= <- <- <-].
    repeat split; simpl; lia. }
  revert n Hn ls ys oc. apply (natlike_ind (λ n, ∀ ls ys oc, _ → _)).
  { intros ls ys oc. change (range 0) with (@nil Z). rewrite foldM_nil.
    intros [= <- <- <-]. repeat split. intros j Hj. lia. }
  intros n Hn IH ls ys oc. unfold Z.succ. rewrite range_succ, foldM_snoc by done.
  destruct (foldM _ _ (range n)) as [[[ls0 ys0] oc0]|e]; simpl; [|done].
  destruct (IH ls0 ys0 oc0 eq_refl) as (Hls & Hys & Hj & Hoc). clear IH.
  unfold init_step.
  destruct (resolver (n + 1)) as [[[out inch] link]|e] eqn:Hr; simpl; [|done].
  intros Hstep.
  assert (ls = ls0 ++ [link] ∧ ys = ys0 ++ [transform_of dwconv out inch]
          ∧ oc = oc0 + (if counted n_layers n then out else 0)) as (-> & -> & ->).
  { unfold transform_of. destruct (counted n_layers n); inversion Hstep; subst;
      repeat split; lia. }
  split; [rewrite length_app; simpl; lia|].
  split; [rewrite length_app; simpl; lia|]. split.
  - intros j Hjn. destruct (decide (j = n)) as [->|Hne].
    + exists out, inch, link. split; [done|].
      rewrite <- Hls at 1. rewrite <- Hys. by rewrite !list_lookup_middle.
    + destruct (Hj j) as (out' & inch' & link' & Hr' & Hl' & Hy'); [lia|].
      exists out', inch', link'. split; [done|].
      rewrite !lookup_app_l by lia. done.
  - rewrite masked_sum_succ by done. cbv beta.
    rewrite (width_at_Ok _ _ _ _ Hr). lia.
Qed.

(** What a block that [__init__] returns holds. *)
Lemma HarDBlock_init_Ok (keepBase' residual_out : bool) (blk : HarDBlock) :
  HarDBlock_init in_channels growth_rate grmul n_layers keepBase' residual_out dwconv
  = Ok blk →
  keepBase blk = keepBase'
  ∧ length (links blk) = Z.to_nat n_layers
  ∧ length (layers blk) = Z.to_nat n_layers
  ∧ (∀ j, 0 ≤ j < n_layers → ∃ out inch link,
        resolver (j + 1) = Ok (out, inch, link)
        ∧ links blk !! Z.to_nat j = Some link
        ∧ layers blk !! Z.to_nat j = Some (transform_of dwconv out inch))
  ∧ out_channels blk = masked_sum (counted n_layers) (λ i, w (i + 1)) n_layers.
Proof.
  unfold HarDBlock_init.
  destruct (foldM _ _ _) as [[[ls ys] oc]|e] eqn:Hloop; simpl; [|done].
  intros [= <-]. simpl. split; [done|]. by apply init_loop.
Qed.

(** ** Running a block *)

Lemma gather_loop (f : Z → tensor) (t : Z) (link : list Z) (acc : list tensor) :
  (∀ i, i ∈ link → 0 ≤ i < t) →
  foldM (λ tin i, x ← getitem (f <$> range t) i; mret (tin ++ [x])) acc link
  = Ok (acc ++ (f <$> link)).
Proof.
  revert acc. induction link as [|i link IH]; intros acc Hb.
  { by rewrite app_nil_r. }
  rewrite foldM_cons, getitem_fmap_range by (apply Hb; left). simpl.
  rewrite IH by (intros k Hk; apply Hb; by right). by rewrite <- app_assoc.
Qed.

Lemma select_loop (f : Z → tensor) (sel : Z → bool) (t : Z) (l : list Z)
    (acc : list tensor) :
  (∀ i, i ∈ l → 0 ≤ i < t) →
  foldM (λ out_ i, if sel i then v ← getitem (f <$> range t) i; mret (out_ ++ [v])
                   else mret out_) acc l
  = Ok (acc ++ (f <$> filter (λ i, sel i = true) l)).
Proof.
  revert acc. induction l as [|i l IH]; intros acc Hb.
  { by rewrite app_nil_r. }
  rewrite foldM_cons. destruct (sel i) eqn:Hsel.
  - rewrite filter_cons_True by done.
    rewrite getitem_fmap_range by (apply Hb; left). simpl.
    rewrite IH by (intros k Hk; apply Hb; by right). by rewrite <- app_assoc.
  - rewrite filter_cons_False by (by rewrite Hsel). simpl.
    apply IH. intros k Hk. apply Hb. by right.
Qed.

Lemma channels_Tensor (ws : list Z) : channels <$> (Tensor <$> ws) = ws.
Proof. induction ws as [|a ws IH]; [done|]. rewrite !fmap_cons. by rewrite IH. Qed.

Lemma cat_tensors (ws : list Z) :
  ws ≠ [] → cat (Tensor <$> ws) = Ok (Tensor (sumZ ws)).
Proof.
  intros Hne. destruct ws as [|a ws]; [done|].
  change (cat (Tensor <$> a :: ws))
    with (Ok (Tensor (foldr Z.add 0 (channels <$> (Tensor <$> a :: ws))))).
  by rewrite channels_Tensor.
Qed.

Lemma apply_transform_of (out inch : Z) :
  apply_transform (transform_of dwconv out inch) (Tensor inch) = Ok (Tensor out).
Proof.
  unfold transform_of, apply_transform, conv2d. destruct dwconv; simpl;
    rewrite !bool_decide_eq_true_2 by done; simpl;
    by rewrite ?bool_decide_eq_true_2 by done.
Qed.

(** The widths the resolver returns for the sources of a layer are the
    widths [w] of the tensors already produced. *)
Lemma link_widths (link : list Z) (ws : list Z) :
  Forall2 (resolves in_channels growth_rate grmul) link ws → ws = w <$> link.
Proof.
  induction 1 as [|k x link ws (inch & l & Hk) _ IH]; [done|].
  simpl. f_equal; [|done]. symmetry. by eapply width_at_Ok.
Qed.

Section Forward.
Variable blk : HarDBlock.
Hypothesis Hlinks : length (links blk) = Z.to_nat n_layers.
Hypothesis Hlayers : length (layers blk) = Z.to_nat n_layers.
Hypothesis Hbuilt : ∀ j, 0 ≤ j < n_layers → ∃ out inch link,
  resolver (j + 1) = Ok (out, inch, link)
  ∧ links blk !! Z.to_nat j = Some link
  ∧ layers blk !! Z.to_nat j = Some (transform_of dwconv out inch).

(** One iteration of the first loop of [forward]: layer [n + 1] reads
    tensors already produced, its transform accepts what it is given, and
    the tensor appended has the width the resolver returned. *)
Lemma forward_step_Ok (n : Z) :
  0 ≤ n < n_layers →
  forward_step blk ((λ k, Tensor (w k)) <$> range (n + 1)) n
  = Ok ((λ k, Tensor (w k)) <$> range (n + 1 + 1)).
Proof.
  intros Hn. destruct (Hbuilt n Hn) as (out & inch & link & Hr & Hl & Hy).
  apply get_link_Ok in Hr as Hr'; [|lia].
  destruct Hr' as (-> & _ & ws & Hws%link_widths & ->). subst ws.
  unfold forward_step.
  rewrite (getitem_lookup _ _ _ (proj1 Hn) Hl). simpl.
  rewrite gather_loop by (intros i Hi%link_of_bounds; lia). simpl.
  assert ((λ k, Tensor (w k)) <$> link_of (n + 1) = Tensor <$> (w <$> link_of (n + 1)))
    as -> by (by rewrite <- list_fmap_compose).
  rewrite length_fmap.
  assert (link_of (n + 1) ≠ []) as Hne.
  { destruct (link_of_head (n + 1)) as [tl ->]. done. }
  assert ((if bool_decide (1 < Z.of_nat (length (w <$> link_of (n + 1))))
           then cat (Tensor <$> (w <$> link_of (n + 1)))
           else getitem (Tensor <$> (w <$> link_of (n + 1))) 0)
          = Ok (Tensor (sumZ (w <$> link_of (n + 1))))) as ->.
  { case_bool_decide as Hlen.
    - apply cat_tensors. by destruct (link_of (n + 1)).
    - rewrite length_fmap in Hlen.
      destruct (link_of (n + 1)) as [|k [|k' l]]; [done| |simpl length in Hlen; lia].
      rewrite (getitem_lookup _ 0 (Tensor (w k))) by done.
      do 2 f_equal. unfold sumZ. simpl. lia. }
  simpl. rewrite (getitem_lookup _ _ _ (proj1 Hn) Hy). simpl.
  rewrite apply_transform_of. simpl.
  rewrite (range_succ (n + 1)), fmap_app by lia. simpl.
  by rewrite (width_at_Ok _ _ _ _ Hr).
Qed.

Lemma forward_loop (n : Z) :
  0 ≤ n ≤ n_layers →
  foldM (forward_step blk) [Tensor in_channels] (range n)
  = Ok ((λ k, Tensor (w k)) <$> range (n + 1)).
Proof.
  intros [Hn Hle]. revert n Hn Hle. apply (natlike_ind (λ n, _ → _)).
  { done. }
  intros n Hn IH Hle. unfold Z.succ.
  rewrite range_succ, foldM_snoc, IH by lia. simpl.
  apply forward_step_Ok. lia.
Qed.

(** The forward pass returns, and the width of what it returns is the sum
    of the resolved widths over the indices [selected] keeps. *)
Lemma forward_Ok :
  let m := Z.max 0 n_layers in
  HarDBlock_forward blk (Tensor in_channels)
  = Ok (Tensor (masked_sum (selected (keepBase blk) (m + 1)) w (m + 1))).
Proof.
  intros m. unfold HarDBlock_forward.
  rewrite Hlayers. replace (Z.of_nat (Z.to_nat n_layers)) with m by lia.
  assert (foldM (forward_step blk) [Tensor in_channels] (range m)
          = Ok ((λ k, Tensor (w k)) <$> range (m + 1))) as ->.
  { destruct (decide (0 ≤ n_layers)) as [Hn|Hn]; [apply forward_loop; lia|].
    by replace m with 0 by lia. }
  simpl.
  rewrite length_fmap, length_range. replace (Z.of_nat (Z.to_nat (m + 1))) with (m + 1) by lia.
  rewrite select_loop by (by intros i Hi%elem_of_range). simpl.
  unfold masked_sum.
  set (kept := filter (λ i, selected (keepBase blk) (m + 1) i = true) (range (m + 1))).
  assert ((λ k, Tensor (w k)) <$> kept = Tensor <$> (w <$> kept))
    as -> by (by rewrite <- list_fmap_compose).
  apply cat_tensors. subst kept.
  intros Hnil%fmap_nil_inv.
  eapply (filter_nil_not_elem_of _ _ m) in Hnil; [|unfold selected].
  - apply Hnil, elem_of_range. lia.
  - rewrite (bool_decide_eq_true_2 (m = m + 1 - 1)) by lia. by rewrite orb_true_r.
Qed.

End Forward.

End BlockFacts.

(** ** The output selection *)

(** From layer 1 on, [__init__] counts the layers that [forward] gathers. *)
Lemma counted_selected (keepBase : bool) (n i : Z) :
  0 ≤ i → counted n i = selected keepBase (n + 1) (i + 1).
Proof.
  intros Hi. unfold counted, selected.
  rewrite (bool_decide_eq_false_2 (i + 1 = 0)) by lia. simpl.
  rewrite (bool_decide_ext (i = n - 1) (i + 1 = n + 1 - 1)) by lia.
  rewrite (bool_decide_ext (i `mod` 2 = 0) ((i + 1) `mod` 2 = 1)); [apply orb_comm|].
  rewrite (Z.add_mod i 1 2) by lia.
  pose proof (Z.mod_pos_bound i 2 ltac:(lia)) as Hb.
  destruct (decide (i `mod` 2 = 0)) as [->|Hne]; [done|].
  replace (i `mod` 2) with 1 by lia. split; [lia|]. by vm_compute.
Qed.

Lemma selected_in_mask (keepBase : bool) (N i : Z) :
  selected keepBase (N + 1) i = in_mask keepBase N i.
Proof.
  unfold selected, in_mask. replace (N + 1 - 1) with N by lia. f_equal.
  rewrite Zmod_odd. by destruct (Z.odd i).
Qed.

Lemma lookup_fmap_range {A : Type} (f : Z → A) (t : Z) (l : list Z) :
  (∀ i, i ∈ l → 0 ≤ i < t) →
  Forall2 (λ i v, (f <$> range t) !! Z.to_nat i = Some v) l (f <$> l).
Proof.
  intros Hl. apply Forall2_fmap_r, Forall_Forall2_diag, Forall_forall.
  intros i Hi%Hl. rewrite list_lookup_fmap, range_lookup by lia. simpl.
  do 2 f_equal. lia.
Qed.

(** C4: for every block built with [n_layers = N], [1 <= N], whatever the
    arithmetic.  The first loop of [forward] produces the [N + 1] tensors
    [layers_]; on the indices [0..N] the test of its second loop selects
    index 0 exactly when [keep_base] is set, index [N] always and every odd
    index, and no other index; [forward] returns the concatenation of the
    tensors of [layers_] at exactly these indices.  On the indices [1..N]
    [__init__] counts layer [i] (its loop index [i - 1]) exactly when
    [forward] selects index [i], and the declared output width is the sum
    of the widths the resolver returns for exactly these indices. *)
Theorem output_selection_mask {num : Type} `{PyNumber num}
    (in_channels growth_rate : Z) (grmul : num) (N : Z)
    (keep_base residual_out dwconv : bool) (blk : HarDBlock) :
  1 ≤ N →
  HarDBlock_init in_channels growth_rate grmul N keep_base residual_out dwconv = Ok blk →
  ∃ (layers_ out_ : list tensor) (outs : list Z),
    let t := Z.of_nat (length layers_) in
    foldM (forward_step blk) [Tensor in_channels]
      (range (Z.of_nat (length (layers blk)))) = Ok layers_
    ∧ t = N + 1
    ∧ selected (keepBase blk) t 0 = keep_base
    ∧ selected (keepBase blk) t N = true
    ∧ (∀ i, Z.odd i = true → selected (keepBase blk) t i = true)
    ∧ (∀ i, 0 ≤ i ≤ N → selected (keepBase blk) t i = in_mask keep_base N i)
    ∧ Forall2 (λ i v, layers_ !! Z.to_nat i = Some v)
        (filter (λ i, in_mask keep_base N i = true) (range (N + 1))) out_
    ∧ HarDBlock_forward blk (Tensor in_channels) = cat out_
    ∧ (∀ i, 1 ≤ i ≤ N → counted N (i - 1) = selected (keepBase blk) t i)
    ∧ Forall2 (resolves in_channels growth_rate grmul)
        (filter (λ i, 1 ≤ i ∧ in_mask keep_base N i = true) (range (N + 1))) outs
    ∧ get_out_ch blk = sumZ outs.
Proof.
  intros HN (Hkb & Hlinks & Hlayers & Hbuilt & Hout)%HarDBlock_init_Ok.
  set (w := width_at in_channels growth_rate grmul) in *.
  set (f := λ k, Tensor (w k)).
  set (kept := filter (λ i, in_mask keep_base N i = true) (range (N + 1))).
  set (counted_ := filter (λ i, 1 ≤ i ∧ in_mask keep_base N i = true) (range (N + 1))).
  exists (f <$> range (N + 1)), (f <$> kept), (w <$> counted_). cbv zeta.
  assert (Z.of_nat (length (f <$> range (N + 1))) = N + 1) as Hlen
    by (rewrite length_fmap, length_range; lia).
  assert (foldM (forward_step blk) [Tensor in_channels]
            (range (Z.of_nat (length (layers blk)))) = Ok (f <$> range (N + 1))) as Hloop.
  { rewrite Hlayers, Z2Nat.id by lia.
    apply (forward_loop in_channels growth_rate grmul N dwconv blk); [done..|lia]. }
  rewrite Hlen, Hkb.
  split; [done|]. split; [done|].
  split. { rewrite selected_in_mask. unfold in_mask.
           rewrite (bool_decide_eq_false_2 (0 = N)) by lia. by destruct keep_base. }
  split. { rewrite selected_in_mask. unfold in_mask.
           rewrite (bool_decide_eq_true_2 (N = N)) by done. by rewrite orb_true_r. }
  split. { intros i Hodd. rewrite selected_in_mask. unfold in_mask.
           rewrite Hodd. by rewrite orb_true_r. }
  split. { intros i _. apply selected_in_mask. }
  split. { apply lookup_fmap_range. intros i Hi%list_elem_of_filter.
           apply elem_of_range. tauto. }
  split.
  { unfold HarDBlock_forward. rewrite Hloop. simpl. rewrite Hlen, Hkb.
    rewrite select_loop by (by intros i Hi%elem_of_range). simpl. do 2 f_equal.
    apply filter_ext_in. intros i _. by rewrite selected_in_mask. }
  split. { intros i Hi. rewrite (counted_selected keep_base) by lia. f_equal. lia. }
  split.
  { apply Forall2_fmap_r, Forall_Forall2_diag, Forall_forall.
    intros i [[Hi1 _] Hi%elem_of_range]%list_elem_of_filter.
    destruct (Hbuilt (i - 1)) as (out & inch & link & Hr & _); [lia|].
    replace (i - 1 + 1) with i in Hr by lia.
    exists inch, link. unfold w. by rewrite (width_at_Ok _ _ _ _ _ _ _ Hr). }
  unfold get_out_ch. rewrite Hout.
  set (mask := λ i, bool_decide (1 ≤ i) && in_mask keep_base N i).
  transitivity (masked_sum mask w (N + 1)).
  - rewrite masked_sum_shift by lia.
    assert (mask 0 = false) as -> by done. rewrite Z.add_0_l.
    apply masked_sum_ext. intros i Hi. split; [|done]. unfold mask.
    rewrite (bool_decide_eq_true_2 (1 ≤ i + 1)) by lia. simpl.
    rewrite <- selected_in_mask. apply counted_selected. lia.
  - unfold masked_sum, counted_. do 2 f_equal. apply filter_ext_in.
    intros i _. unfold mask. rewrite andb_true_iff, bool_decide_eq_true. done.
Qed.

Lemma output_selection_mask_witness :
  1 ≤ 4
  ∧ HarDBlock_init (num := float) 20 10 (num_literal 1) 4 false false false
    = Ok example_block
  ∧ ∃ (layers_ out_ : list tensor) (outs : list Z),
      let t := Z.of_nat (length layers_) in
      foldM (forward_step example_block) [Tensor 20]
        (range (Z.of_nat (length (layers example_block)))) = Ok layers_
      ∧ t = 4 + 1
      ∧ selected (keepBase example_block) t 0 = false
      ∧ selected (keepBase example_block) t 4 = true
      ∧ (∀ i, Z.odd i = true → selected (keepBase example_block) t i = true)
      ∧ (∀ i, 0 ≤ i ≤ 4 → selected (keepBase example_block) t i = in_mask false 4 i)
      ∧ Forall2 (λ i v, layers_ !! Z.to_nat i = Some v)
          (filter (λ i, in_mask false 4 i = true) (range (4 + 1))) out_
      ∧ HarDBlock_forward example_block (Tensor 20) = cat out_
      ∧ (∀ i, 1 ≤ i ≤ 4 → counted 4 (i - 1) = selected (keepBase example_block) t i)
      ∧ Forall2 (resolves (num := float) 20 10 (num_literal 1))
          (filter (λ i, 1 ≤ i ∧ in_mask false 4 i = true) (range (4 + 1))) outs
      ∧ get_out_ch example_block = sumZ outs.
Proof.
  split; [lia|]. split; [vm_compute; reflexivity|].
  apply (output_selection_mask (num := float) 20 10 (num_literal 1) 4 false false false
           example_block); [lia | vm_compute; reflexivity].
Defined.

(** ** Declared width and width at run time *)

(** Whatever the arithmetic, a block that [__init__] returns runs on an
    input of [in_channels] channels, and its output has the declared width
    plus the width of the input whenever index 0 is selected. *)
Lemma forward_width {num : Type} `{PyNumber num}
    (in_channels growth_rate : Z) (grmul : num) (n_layers : Z)
    (keepBase' residual_out dwconv : bool) (blk : HarDBlock) :
  HarDBlock_init in_channels growth_rate grmul n_layers keepBase' residual_out dwconv
  = Ok blk →
  HarDBlock_forward blk (Tensor in_channels)
  = Ok (Tensor (get_out_ch blk
                + (if keepBase' || bool_decide (n_layers ≤ 0) then in_channels else 0))).
Proof.
  intros (Hkb & Hlinks & Hlayers & Hbuilt & Hout)%HarDBlock_init_Ok.
  rewrite (forward_Ok in_channels growth_rate grmul n_layers dwconv blk) by done.
  cbv zeta. do 2 f_equal. unfold get_out_ch. rewrite Hout, Hkb.
  set (m := Z.max 0 n_layers).
  rewrite masked_sum_shift by lia. rewrite width_at_0.
  assert (masked_sum (counted n_layers)
            (λ i, width_at in_channels growth_rate grmul (i + 1)) n_layers
          = masked_sum (λ i, selected keepBase' (m + 1) (i + 1))
              (λ i, width_at in_channels growth_rate grmul (i + 1)) m) as ->.
  { destruct (decide (0 ≤ n_layers)) as [Hn|Hn].
    - replace m with n_layers by lia. apply masked_sum_ext.
      intros i Hi. split; [|done]. apply counted_selected. lia.
    - replace m with 0 by lia. unfold masked_sum. by rewrite range_nonpos by lia. }
  assert (selected keepBase' (m + 1) 0 = keepBase' || bool_decide (n_layers ≤ 0)) as ->;
    [|lia].
  unfold selected. rewrite (bool_decide_eq_true_2 (0 = 0)) by done. simpl.
  rewrite orb_false_r. f_equal. apply bool_decide_ext. lia.
Qed.

(** In exact arithmetic [__init__] returns a block for every argument. *)
Lemma HarDBlock_init_total (in_channels growth_rate : Z) (grmul : Q) (n_layers : Z)
    (keepBase' residual_out dwconv : bool) :
  ∃ blk,
    HarDBlock_init in_channels growth_rate grmul n_layers keepBase' residual_out dwconv
    = Ok blk.
Proof.
  unfold HarDBlock_init.
  assert (∀ n, ∃ st,
            foldM (init_step in_channels growth_rate grmul n_layers dwconv)
                  ([], [], 0) (range n) = Ok st) as Hloop.
  { intros n. destruct (Z.le_gt_cases 0 n) as [Hn|Hn]; cycle 1.
    { rewrite range_nonpos by lia. by eexists. }
    revert n Hn. apply natlike_ind; [by eexists|].
    intros n Hn [[[ls ys] oc] IH]. unfold Z.succ.
    rewrite range_succ, foldM_snoc, IH by done. simpl. unfold init_step.
    destruct (get_link_total (n + 1) in_channels growth_rate grmul)
      as (out & inch & link & ->); [lia|].
    simpl. destruct (counted n_layers n); by eexists. }
  destruct (Hloop n_layers) as [[[ls ys] oc] ->]. by eexists.
Qed.

(** For every block, in exact arithmetic: the block is built, it runs on an
    input of [in_channels] channels, and the width of its output is the
    declared width when [1 <= n_layers] and [keepBase] is unset, and the
    declared width plus [in_channels] otherwise. *)
Theorem block_output_width (in_channels growth_rate : Z) (grmul : Q) (n_layers : Z)
    (keepBase' residual_out dwconv : bool) :
  ∃ blk,
    HarDBlock_init in_channels growth_rate grmul n_layers keepBase' residual_out dwconv
    = Ok blk
    ∧ HarDBlock_forward blk (Tensor in_channels)
      = Ok (Tensor (get_out_ch blk
                    + (if keepBase' || bool_decide (n_layers ≤ 0)
                       then in_channels else 0))).
Proof.
  destruct (HarDBlock_init_total in_channels growth_rate grmul n_layers
              keepBase' residual_out dwconv) as [blk Hblk].
  exists blk. split; [done|]. exact (forward_width _ _ _ _ _ _ _ _ Hblk).
Qed.

(** C1, the failing input: the block of the specification's example
    ([in_channels = 20], [growth_rate = 10], [grmul = 1.0], [n_layers = 4])
    built with [keepBase] set declares 30 output channels, and its forward
    pass on an input of 20 channels returns 50. *)
Theorem keep_base_width_mismatch :
  ∃ blk,
    HarDBlock_init 20 10 1%Q 4 true false false = Ok blk
    ∧ get_out_ch blk = 30
    ∧ HarDBlock_forward blk (Tensor 20) = Ok (Tensor 50).
Proof. eexists. split; [by vm_compute|]. split; by vm_compute. Qed.

(** C7, refuted as stated: [__init__] with [n_layers = 0] returns a block;
    it raises nothing. *)
Lemma zero_layers_block_is_built :
  HarDBlock_init 20 10 1%Q 0 false false false = Ok (mkHarDBlock false [] [] 0)
  ∧ ∀ e, HarDBlock_init 20 10 1%Q 0 false false false ≠ Raise e.
Proof. split; [by vm_compute|]. intros e. by vm_compute. Qed.

(** C7, amended: constructing a block with [n_layers < 1] raises nothing; it
    returns a block with no link list, no layer and the declared output
    width 0. *)
Theorem block_without_layers {num : Type} `{PyNumber num}
    (in_channels growth_rate : Z) (grmul : num) (n_layers : Z)
    (keepBase' residual_out dwconv : bool) :
  n_layers < 1 →
  HarDBlock_init in_channels growth_rate grmul n_layers keepBase' residual_out dwconv
  = Ok (mkHarDBlock keepBase' [] [] 0).
Proof. intros Hn. unfold HarDBlock_init. by rewrite range_nonpos by lia. Qed.

Lemma block_without_layers_witness :
  -1 < 1
  ∧ HarDBlock_init 20 10 1%Q (-1) true false false = Ok (mkHarDBlock true [] [] 0).
Proof.
  split; [lia | apply (block_without_layers 20 10 1%Q (-1) true false false); lia].
Defined.

(** ** Building the network *)

(** C8: building a network with an architecture other than 68, 85 and 39
    raises [ValueError], whatever the other arguments, the environment and
    the arithmetic; the network is as it was before [__init__] ran, with no
    stage in [self.base]. *)
Theorem unsupported_arch_raises {num : Type} `{PyNumber num} (env : environment)
    (depth_wise : bool) (arch : Z) (pretrained : bool) (weight_path : string) :
  arch ≠ 68 → arch ≠ 85 → arch ≠ 39 →
  HarDNet_init env depth_wise arch pretrained weight_path new_module
  = (Raise (ValueError ("Architecture type " +:+ pretty arch +:+ " is not supported")),
     new_module)
  ∧ base new_module = [].
Proof.
  intros H68 H85 H39. split; [|done].
  unfold HarDNet_init, select_profile.
  by rewrite !bool_decide_eq_false_2 by done.
Qed.

Lemma unsupported_arch_raises_witness :
  40 ≠ 68 ∧ 40 ≠ 85 ∧ 40 ≠ 39
  ∧ HarDNet_init (num := Q) hub_environment false 40 true "" new_module
    = (Raise (ValueError ("Architecture type " +:+ pretty 40 +:+ " is not supported")),
       new_module)
  ∧ base new_module = [].
Proof.
  split; [lia|]. split; [lia|]. split; [lia|].
  apply (unsupported_arch_raises (num := Q) hub_environment false 40 true ""); lia.
Defined.

(** C9: the arch-39 branch leaves [drop_rate] unassigned.  In either
    arithmetic, constructing the arch-39 network with [depth_wise] unset
    raises [UnboundLocalError] for [drop_rate]; when it does, [self.base]
    holds the 14 stages that precede the classification head, down to the
    last projection, and no head.  With [depth_wise] set (and no pretrained
    weights requested) the same construction completes, the head last. *)
Theorem arch39_needs_depth_wise (a : arithmetic) (env : environment)
    (pretrained : bool) (weight_path : string) :
  (∃ p, select_profile 39 = Ok p ∧ drop_rate p = None)
  ∧ (∃ self,
     HarDNet_new a env false 39 pretrained weight_path
     = (Raise (UnboundLocalError "drop_rate"), self)
     ∧ length (base self) = 14%nat
     ∧ last (base self) = Some (Transform (conv_layer 730 1024 1 1)))
  ∧ (∃ self,
       HarDNet_new a env true 39 false weight_path = (Ok (), self)
       ∧ length (base self) = 15%nat
       ∧ last (base self) = Some (Classifier (5 # 100) 1024 1000)).
Proof.
  split; [eexists; split; reflexivity|].
  destruct a;
    (split; eexists; (split; [vm_compute; reflexivity|]); split; vm_compute; reflexivity).
Qed.

(** C10, refuted as stated: with pretrained weights requested and the hub
    available, the non-depthwise 39 variant has a codename absent from the
    checkpoint table, and its construction raises [UnboundLocalError], not
    [KeyError]. *)
Lemma arch39_fails_before_lookup :
  checkpoint_urls !! arch_codename 39 false = None
  ∧ (HarDNet_new ieee_binary64 hub_environment false 39 true "").1
    = Raise (UnboundLocalError "drop_rate")
  ∧ (HarDNet_new ieee_binary64 hub_environment false 39 true "").1
    ≠ Raise (KeyError (arch_codename 39 false)).
Proof.
  split; [by vm_compute|]. split; [by vm_compute|].
  intros Heq. vm_compute in Heq. discriminate Heq.
Qed.

(** C10, amended: in either arithmetic, with pretrained weights requested
    and the hub available, the constructions that reach the checkpoint
    lookup with a codename absent from the table are the depthwise 85
    variant ([HarDNet85DS]) and the depthwise 39 variant ([HarDNet39DS]; the
    key of the table is [HarDNet39_DS]), and they raise [KeyError]; the
    codenames of 68, 68 depthwise and 85 are in the table; the non-depthwise
    39 variant raises [UnboundLocalError] before the lookup. *)
Theorem missing_checkpoint_raises_key_error (a : arithmetic) (env : environment)
    (weight_path : string) :
  has_hub env = true →
  ((HarDNet_new a env true 85 true weight_path).1 = Raise (KeyError "HarDNet85DS")
   ∧ checkpoint_urls !! arch_codename 85 true = None)
  ∧ ((HarDNet_new a env true 39 true weight_path).1 = Raise (KeyError "HarDNet39DS")
     ∧ checkpoint_urls !! arch_codename 39 true = None)
  ∧ is_Some (checkpoint_urls !! arch_codename 68 false)
  ∧ is_Some (checkpoint_urls !! arch_codename 68 true)
  ∧ is_Some (checkpoint_urls !! arch_codename 85 false)
  ∧ (HarDNet_new a env false 39 true weight_path).1
    = Raise (UnboundLocalError "drop_rate").
Proof.
  destruct env as [hub fetch isf load fits]. cbn [has_hub]. intros ->.
  destruct a;
    (split; [split; vm_compute; reflexivity|]);
    (split; [split; vm_compute; reflexivity|]);
    (do 3 (split; [eexists; vm_compute; reflexivity|]));
    vm_compute; reflexivity.
Qed.

Lemma missing_checkpoint_raises_key_error_witness :
  has_hub hub_environment = true
  ∧ ((HarDNet_new ieee_binary64 hub_environment true 85 true "").1
     = Raise (KeyError "HarDNet85DS")
     ∧ checkpoint_urls !! arch_codename 85 true = None)
  ∧ ((HarDNet_new ieee_binary64 hub_environment true 39 true "").1
     = Raise (KeyError "HarDNet39DS")
     ∧ checkpoint_urls !! arch_codename 39 true = None)
  ∧ is_Some (checkpoint_urls !! arch_codename 68 false)
  ∧ is_Some (checkpoint_urls !! arch_codename 68 true)
  ∧ is_Some (checkpoint_urls !! arch_codename 85 false)
  ∧ (HarDNet_new ieee_binary64 hub_environment false 39 true "").1
    = Raise (UnboundLocalError "drop_rate").
Proof.
  split; [reflexivity|].
  apply (missing_checkpoint_raises_key_error ieee_binary64 hub_environment ""). reflexivity.
Defined.

(** ** Binary64 against exact arithmetic *)

(** On the three shipped profiles, depthwise or not, binary64 and exact
    arithmetic build the same network (or stop on the same exception with
    the same stages built): no width of theirs sits at a rounding
    threshold. *)
Lemma shipped_profiles_agree (env : environment) (depth_wise : bool)
    (weight_path : string) :
  Forall (λ arch,
            HarDNet_new ieee_binary64 env depth_wise arch false weight_path
            = HarDNet_new exact_rational env depth_wise arch false weight_path)
         [68; 85; 39].
Proof.
  destruct depth_wise;
    (do 3 (apply Forall_cons; split; [vm_compute; reflexivity|])); apply Forall_nil_2.
Qed.

(** Layer 4 of the first block of HarDNet68 in binary64: the width
    accumulated is [14 * 1.7 * 1.7], above 40, and the width returned is 40. *)
Lemma hardnet68_layer4_binary64 :
  get_link (num := float) 4 64 14 (num_literal (17 # 10)) = Ok (40, 102, [3; 2; 0])
  ∧ ∃ raw,
      accumulated_width (num := float) 4 14 (num_literal (17 # 10)) = Ok (PyFloat raw)
      ∧ PrimFloat.ltb (Binary64.of_Z 40) raw = true.
Proof.
  split; [vm_compute; reflexivity|]. eexists. split; vm_compute; reflexivity.
Qed.

(** * Further properties of the program *)

(** ** The resolver *)

(** X1: every layer from 1 on reads its immediate predecessor first: the
    link list the resolver returns for [layer] starts with [layer - 1]. *)
Theorem first_link_is_predecessor (layer base_ch growth_rate : Z) (grmul : Q) :
  1 ≤ layer →
  ∃ out inch tl,
    get_link layer base_ch growth_rate grmul = Ok (out, inch, (layer - 1) :: tl).
Proof.
  intros Hl.
  destruct (get_link_total layer base_ch growth_rate grmul) as (out & inch & link & Hr);
    [lia|].
  apply get_link_Ok in Hr as Hr'; [|done]. destruct Hr' as (Hlink & _).
  destruct (link_of_head layer) as [tl Htl].
  exists out, inch, tl. by rewrite <- Htl, <- Hlink.
Qed.

Lemma first_link_is_predecessor_witness :
  1 ≤ 12
  ∧ ∃ out inch tl, get_link 12 64 14 (17 # 10)%Q = Ok (out, inch, (12 - 1) :: tl).
Proof. split; [lia | apply (first_link_is_predecessor 12 64 14 (17 # 10)%Q); lia]. Defined.

Lemma filter_none {A : Type} (P : A → Prop) `{!∀ a, Decision (P a)} (l : list A) :
  (∀ a, a ∈ l → ¬ P a) → filter P l = [].
Proof.
  induction l as [|a l IH]; intros Hl; [done|].
  rewrite filter_cons_False by (apply Hl; left).
  apply IH. intros b Hb. apply Hl. by right.
Qed.

Lemma odd_not_multiple (layer i : Z) :
  layer `mod` 2 = 1 → 1 ≤ i → layer `mod` 2 ^ i ≠ 0.
Proof.
  intros Hodd Hi Hdiv.
  apply Z.mod_divide in Hdiv; [|apply Z.pow_nonzero; lia].
  assert ((2 | 2 ^ i)) as H2.
  { exists (2 ^ (i - 1)). replace (2 ^ i) with (2 ^ Z.succ (i - 1)) by (f_equal; lia).
    rewrite Z.pow_succ_r by lia. lia. }
  pose proof (Z.divide_trans _ _ _ H2 Hdiv) as H2l.
  apply Z.mod_divide in H2l; lia.
Qed.

Lemma link_of_odd (layer : Z) : layer `mod` 2 = 1 → link_of layer = [layer - 1].
Proof.
  intros Hodd. unfold link_of. change (range 10) with (0 :: (Z.succ <$> range 9)).
  rewrite filter_cons_True by apply Z.mod_1_r.
  rewrite filter_none; [done|].
  intros i (j & -> & Hj%elem_of_range)%list_elem_of_fmap. apply odd_not_multiple; lia.
Qed.

Lemma foldM_fixed {A B : Type} (body : A → B → result A) (a : A) (l : list B) :
  (∀ b, b ∈ l → body a b = Ok a) → foldM body a l = Ok a.
Proof.
  induction l as [|b l IH]; intros Hl; [done|].
  rewrite foldM_cons, Hl by left. simpl. apply IH. intros b' Hb'. apply Hl. by right.
Qed.

(** On an odd layer the scan makes no product: it leaves the width at the
    [int] [growth_rate], whatever the arithmetic. *)
Lemma scan_odd {num : Type} `{PyNumber num} (layer growth_rate : Z) (grmul : num) :
  layer `mod` 2 = 1 →
  scan layer growth_rate grmul = Ok (PyInt growth_rate, [layer - 1]).
Proof.
  intros Hodd. unfold scan. change (range 10) with (0 :: (Z.succ <$> range 9)).
  rewrite foldM_cons.
  assert (scan_step layer grmul (PyInt growth_rate, []) 0
          = Ok (PyInt growth_rate, [layer - 1])) as ->.
  { unfold scan_step. by rewrite bool_decide_eq_true_2 by apply Z.mod_1_r. }
  unfold mbind, result_bind. apply foldM_fixed.
  intros i (j & -> & Hj%elem_of_range)%list_elem_of_fmap.
  unfold scan_step. rewrite bool_decide_eq_false_2; [done|].
  apply odd_not_multiple; lia.
Qed.

(** X2: in any arithmetic of the floats that halves exactly (binary64 and
    exact arithmetic do), when the resolver returns for an odd layer: the
    layer has one source, the layer before it; no product is made, so its
    width does not depend on [grmul]: it is
    [int((growth_rate + 1) / 2) * 2], the sum being that of two [int]s and
    [/] their true division, which is [growth_rate + 1] rounded toward zero
    to an even integer when that sum has at most 53 bits; its input width
    is the width of the layer before it. *)
Theorem odd_layer_resolution {num : Type} `{!PyNumber num} `{!ExactHalves num}
    (layer base_ch growth_rate : Z) (grmul : num) (out inch : Z) (link : list Z) :
  1 ≤ layer → layer `mod` 2 = 1 →
  get_link layer base_ch growth_rate grmul = Ok (out, inch, link) →
  link = [layer - 1]
  ∧ (∃ h m, num_half (growth_rate + 1) = Ok h ∧ num_int h = Ok m ∧ out = m * 2)
  ∧ (Z.abs (growth_rate + 1) < 2 ^ 53 → out = (growth_rate + 1) `quot` 2 * 2)
  ∧ resolves base_ch growth_rate grmul (layer - 1) inch.
Proof.
  intros Hl Hodd (Hlink & Hout & ws & Hws & Hinch)%get_link_Ok; [|done].
  rewrite link_of_odd in Hlink by done. subst link.
  unfold layer_width in Hout. rewrite scan_odd in Hout by done.
  apply round_even_Ok in Hout as (s & n & h & m & Hs & Hn & Hh & Hm & ->).
  simpl in Hs. injection Hs as <-. simpl in Hn. injection Hn as <-.
  apply Forall2_cons_inv_l in Hws as (w & ws' & Hw & Hnil & ->).
  apply Forall2_nil_inv_l in Hnil as ->.
  split; [done|]. split; [by exists h, m|]. split.
  - intros Hbits%half_exact. rewrite Hh in Hbits. simpl in Hbits. congruence.
  - replace inch with w; [done|]. rewrite Hinch. unfold sumZ. simpl. lia.
Qed.

Lemma odd_layer_resolution_witness :
  1 ≤ 7 ∧ 7 `mod` 2 = 1
  ∧ get_link (num := float) 7 64 14 (num_literal (17 # 10)) = Ok (14, 24, [6])
  ∧ [6] = [7 - 1]
  ∧ (∃ h m, num_half (num := float) (14 + 1) = Ok h ∧ num_int h = Ok m ∧ 14 = m * 2)
  ∧ (Z.abs (14 + 1) < 2 ^ 53 → 14 = (14 + 1) `quot` 2 * 2)
  ∧ resolves (num := float) 64 14 (num_literal (17 # 10)) (7 - 1) 24.
Proof.
  split; [lia|]. split; [reflexivity|]. split; [vm_compute; reflexivity|].
  apply (odd_layer_resolution (num := float) 7 64 14 (num_literal (17 # 10)) 14 24 [6]);
    [lia | reflexivity | vm_compute; reflexivity].
Defined.

(** X3: the input of the block (index 0) feeds exactly the layers 1, 2, 4,
    ..., 512: the link list returned for a layer contains 0 exactly when the
    layer is a power of two with exponent below 10. *)
Theorem block_input_feeds_powers_of_two (layer base_ch growth_rate : Z) (grmul : Q) :
  1 ≤ layer →
  ∃ out inch link,
    get_link layer base_ch growth_rate grmul = Ok (out, inch, link)
    ∧ (0 ∈ link ↔ ∃ i, 0 ≤ i < 10 ∧ layer = 2 ^ i).
Proof.
  intros Hl.
  destruct (get_link_total layer base_ch growth_rate grmul) as (out & inch & link & Hr);
    [lia|].
  exists out, inch, link. split; [done|].
  apply get_link_Ok in Hr as (-> & _); [|done].
  rewrite elem_of_link_of. split.
  - intros (i & Hi & _ & Heq). exists i. split; [done|lia].
  - intros (i & Hi & ->). exists i. split; [done|]. split; [|lia].
    apply Z.mod_same. apply Z.pow_nonzero; lia.
Qed.

Lemma block_input_feeds_powers_of_two_witness :
  1 ≤ 16
  ∧ ∃ out inch link,
      get_link 16 64 14 (17 # 10)%Q = Ok (out, inch, link)
      ∧ (0 ∈ link ↔ ∃ i, 0 ≤ i < 10 ∧ 16 = 2 ^ i).
Proof.
  split; [lia | apply (block_input_feeds_powers_of_two 16 64 14 (17 # 10)%Q); lia].
Defined.

(** X4: on a negative layer the resolver never returns, whatever the
    arithmetic and whatever bound is put on the depth of the recursion: the
    call raises.  The exception is [RecursionError], from the chain
    [layer, layer - 1, ...] that exhausts the bound, unless the width of
    some layer of that chain cannot be computed, in which case it is the
    exception of that width (in binary64, [OverflowError] for an infinite
    width). *)
Theorem negative_layer_never_returns {num : Type} `{PyNumber num}
    (layer base_ch growth_rate : Z) (grmul : num) :
  layer < 0 →
  ∀ fuel, ∃ e,
    get_link_rec fuel layer base_ch growth_rate grmul = Raise e
    ∧ (e = RecursionError
       ∨ ∃ l, l ≤ layer ∧ layer_width l growth_rate grmul = Raise e).
Proof.
  intros Hneg fuel. revert layer Hneg.
  induction fuel as [|fuel IH]; intros layer Hneg; [exists RecursionError; by split; [|left]|].
  cbn [get_link_rec]. rewrite bool_decide_eq_false_2 by lia.
  destruct (scan layer growth_rate grmul) as [[raw link]|e] eqn:Hscan; simpl; cycle 1.
  { exists e. split; [done|]. right. exists layer. split; [lia|].
    unfold layer_width. by rewrite Hscan. }
  apply scan_link in Hscan as Hlink. subst link.
  destruct (round_even raw) as [out|e] eqn:Hround; simpl; cycle 1.
  { exists e. split; [done|]. right. exists layer. split; [lia|].
    unfold layer_width. by rewrite Hscan. }
  destruct (link_of_head layer) as [tl ->].
  destruct (IH (layer - 1)) as (e & He & Hkind); [lia|].
  exists e. split.
  - unfold sum_links. by rewrite foldM_cons, He.
  - destruct Hkind as [->|(l & Hl & Hw)]; [by left|right].
    exists l. split; [lia|done].
Qed.

Lemma negative_layer_never_returns_witness :
  -3 < 0
  ∧ ∀ fuel, ∃ e,
      get_link_rec (num := float) fuel (-3) 64 14 (num_literal (17 # 10)) = Raise e
      ∧ (e = RecursionError
         ∨ ∃ l, l ≤ -3
             ∧ layer_width (num := float) l 14 (num_literal (17 # 10)) = Raise e).
Proof.
  split; [lia|].
  apply (negative_layer_never_returns (num := float) (-3) 64 14 (num_literal (17 # 10))).
  lia.
Defined.

Lemma descending_NoDup (l : list Z) : StronglySorted Z.gt l → NoDup l.
Proof.
  induction 1 as [|a l _ IH Ha]; constructor; [|done].
  intros Hin. eapply Forall_forall in Ha; [|done]. lia.
Qed.

(** X6: whatever the depth of the block, a layer reads at most 10 earlier
    outputs, at least one, and never the same one twice. *)
Theorem fan_in_at_most_ten (layer base_ch growth_rate : Z) (grmul : Q) :
  1 ≤ layer →
  ∃ out inch link,
    get_link layer base_ch growth_rate grmul = Ok (out, inch, link)
    ∧ NoDup link
    ∧ (1 ≤ length link ≤ 10)%nat.
Proof.
  intros Hl.
  destruct (get_link_total layer base_ch growth_rate grmul) as (out & inch & link & Hr);
    [lia|].
  exists out, inch, link. split; [done|].
  apply get_link_Ok in Hr as (-> & _); [|done].
  split; [apply descending_NoDup, link_of_descending|]. split.
  - destruct (link_of_head layer) as [tl ->]. simpl. lia.
  - unfold link_of. rewrite length_fmap.
    pose proof (length_filter (λ i, layer `mod` 2 ^ i = 0) (range 10)) as Hlen.
    by rewrite length_range in Hlen.
Qed.

Lemma fan_in_at_most_ten_witness :
  1 ≤ 1024
  ∧ ∃ out inch link,
      get_link 1024 64 14 (17 # 10)%Q = Ok (out, inch, link)
      ∧ NoDup link
      ∧ (1 ≤ length link ≤ 10)%nat.
Proof. split; [lia | apply (fan_in_at_most_ten 1024 64 14 (17 # 10)%Q); lia]. Defined.

(** ** Blocks *)

(** X7: in any arithmetic, a block that [__init__] returns has [n_layers]
    link lists and [n_layers] transforms, and at position [j] they are what
    the resolver returns for layer [j + 1]: its link list, and a transform
    from its input width to its output width (a 3x3 [conv_layer], or a
    1x1 [comb_conv_layer] when [dwconv] is set). *)
Theorem block_layer_at {num : Type} `{PyNumber num}
    (in_channels growth_rate : Z) (grmul : num) (n_layers : Z)
    (keepBase' residual_out dwconv : bool) (blk : HarDBlock) (j : Z) :
  HarDBlock_init in_channels growth_rate grmul n_layers keepBase' residual_out dwconv
  = Ok blk →
  0 ≤ j < n_layers →
  length (links blk) = Z.to_nat n_layers
  ∧ length (layers blk) = Z.to_nat n_layers
  ∧ ∃ out inch link,
      get_link (j + 1) in_channels growth_rate grmul = Ok (out, inch, link)
      ∧ links blk !! Z.to_nat j = Some link
      ∧ layers blk !! Z.to_nat j
        = Some (if dwconv then comb_conv_layer inch out 1 1 else conv_layer inch out 3 1).
Proof.
  intros (_ & Hlinks & Hlayers & Hbuilt & _)%HarDBlock_init_Ok Hj.
  split; [done|]. split; [done|]. exact (Hbuilt j Hj).
Qed.

Lemma block_layer_at_witness :
  HarDBlock_init (num := float) 20 10 (num_literal 1) 4 false false false
  = Ok example_block
  ∧ 0 ≤ 3 < 4
  ∧ length (links example_block) = Z.to_nat 4
  ∧ length (layers example_block) = Z.to_nat 4
  ∧ ∃ out inch link,
      get_link (num := float) (3 + 1) 20 10 (num_literal 1) = Ok (out, inch, link)
      ∧ links example_block !! Z.to_nat 3 = Some link
      ∧ layers example_block !! Z.to_nat 3 = Some (conv_layer inch out 3 1).
Proof.
  split; [vm_compute; reflexivity|]. split; [lia|].
  apply (block_layer_at (num := float) 20 10 (num_literal 1) 4 false false false
           example_block 3); [vm_compute; reflexivity | lia].
Defined.

(** X8: in any arithmetic, a block of at least one layer built without
    [keepBase] runs on an input of [in_channels] channels, and what it
    returns has exactly the width [get_out_ch] declares. *)
Theorem forward_has_declared_width {num : Type} `{PyNumber num}
    (in_channels growth_rate : Z) (grmul : num) (n_layers : Z)
    (residual_out dwconv : bool) (blk : HarDBlock) :
  HarDBlock_init in_channels growth_rate grmul n_layers false residual_out dwconv
  = Ok blk →
  1 ≤ n_layers →
  HarDBlock_forward blk (Tensor in_channels) = Ok (Tensor (get_out_ch blk)).
Proof.
  intros Hblk Hn. rewrite (forward_width _ _ _ _ _ _ _ _ Hblk).
  rewrite bool_decide_eq_false_2 by lia. simpl. by rewrite Z.add_0_r.
Qed.

Lemma forward_has_declared_width_witness :
  HarDBlock_init (num := float) 20 10 (num_literal 1) 4 false false false
  = Ok example_block
  ∧ 1 ≤ 4
  ∧ HarDBlock_forward example_block (Tensor 20) = Ok (Tensor (get_out_ch example_block)).
Proof.
  split; [vm_compute; reflexivity|]. split; [lia|].
  apply (forward_has_declared_width (num := float) 20 10 (num_literal 1) 4 false false
           example_block); [vm_compute; reflexivity | lia].
Defined.

Lemma foldM_raise {A B : Type} (body : A → B → result A) (a : A) (b : B) (l : list B)
    (e : py_error) :
  body a b = Raise e → foldM body a (b :: l) = Raise e.
Proof. intros Hb. by rewrite foldM_cons, Hb. Qed.

(** X9: in any arithmetic, a block of at least one layer refuses an input
    whose channel count is not [in_channels]: the transform of layer 1, fed
    the input itself, raises [RuntimeError]. *)
Theorem forward_rejects_other_widths {num : Type} `{PyNumber num}
    (in_channels growth_rate : Z) (grmul : num) (n_layers : Z)
    (keepBase' residual_out dwconv : bool) (blk : HarDBlock) (x : tensor) :
  HarDBlock_init in_channels growth_rate grmul n_layers keepBase' residual_out dwconv
  = Ok blk →
  1 ≤ n_layers →
  channels x ≠ in_channels →
  ∃ msg, HarDBlock_forward blk x = Raise (RuntimeError msg).
Proof.
  intros (_ & Hlinks & Hlayers & Hbuilt & _)%HarDBlock_init_Ok Hn Hx.
  destruct (Hbuilt 0 ltac:(lia)) as (out & inch & link & Hr & Hl & Hy).
  apply get_link_Ok in Hr as (-> & _ & ws & Hws & ->); [|lia].
  change (link_of (0 + 1)) with [0] in *.
  apply Forall2_cons_inv_l in Hws as (w0 & ws' & (i0 & l0 & Hw0) & Hnil & ->).
  apply Forall2_nil_inv_l in Hnil as ->.
  rewrite get_link_0 in Hw0. injection Hw0 as <- _ _.
  replace (sumZ [in_channels]) with in_channels in Hy by (unfold sumZ; simpl; lia).
  eexists. unfold HarDBlock_forward. rewrite Hlayers.
  replace (Z.of_nat (Z.to_nat n_layers)) with (n_layers - 1 + 1) by lia.
  assert (range (n_layers - 1 + 1) = 0 :: (Z.succ <$> range (n_layers - 1))) as ->.
  { unfold range. replace (Z.to_nat (n_layers - 1 + 1)) with (S (Z.to_nat (n_layers - 1)))
      by lia.
    simpl. f_equal. rewrite <- fmap_S_seq, <- !list_fmap_compose.
    apply list_fmap_ext. intros ? k _. simpl. lia. }
  erewrite foldM_raise; [done|].
  unfold forward_step.
  rewrite (getitem_lookup _ 0 [0]) by done. simpl.
  rewrite (getitem_lookup _ 0 (transform_of dwconv out in_channels)) by done. simpl.
  unfold transform_of, apply_transform, conv2d.
  destruct dwconv; by rewrite bool_decide_eq_false_2 by done.
Qed.

Lemma forward_rejects_other_widths_witness :
  HarDBlock_init (num := float) 20 10 (num_literal 1) 4 false false false
  = Ok example_block
  ∧ 1 ≤ 4
  ∧ channels (Tensor 21) ≠ 20
  ∧ ∃ msg, HarDBlock_forward example_block (Tensor 21) = Raise (RuntimeError msg).
Proof.
  split; [vm_compute; reflexivity|]. split; [lia|]. split; [simpl; lia|].
  apply (forward_rejects_other_widths (num := float) 20 10 (num_literal 1) 4
           false false false example_block (Tensor 21));
    [vm_compute; reflexivity | lia | simpl; lia].
Defined.

(** X10: a block without layers ([n_layers < 1]) is the identity: its
    forward pass returns its input, whatever the input and whatever
    [keepBase]. *)
Theorem empty_block_is_identity {num : Type} `{PyNumber num}
    (in_channels growth_rate : Z) (grmul : num) (n_layers : Z)
    (keepBase' residual_out dwconv : bool) (x : tensor) :
  n_layers < 1 →
  ∃ blk,
    HarDBlock_init in_channels growth_rate grmul n_layers keepBase' residual_out dwconv
    = Ok blk
    ∧ HarDBlock_forward blk x = Ok x.
Proof.
  intros Hn. exists (mkHarDBlock keepBase' [] [] 0). split.
  - unfold HarDBlock_init. by rewrite range_nonpos by lia.
  - destruct x as [c]. unfold HarDBlock_forward. cbn [layers keepBase length].
    change (range (Z.of_nat 0)) with (@nil Z). rewrite foldM_nil.
    change (Ok [Tensor c] ≫= ?f) with (f [Tensor c]). cbv beta.
    change (range (Z.of_nat (length [Tensor c]))) with [0].
    change (Z.of_nat (length [Tensor c])) with 1.
    rewrite foldM_cons.
    assert (selected keepBase' 1 0 = true) as ->.
    { unfold selected. rewrite (bool_decide_eq_true_2 (0 = 1 - 1)) by done.
      by rewrite orb_true_r. }
    rewrite (getitem_lookup _ 0 (Tensor c)) by done. simpl.
    by rewrite Z.add_0_r.
Qed.

Lemma empty_block_is_identity_witness :
  0 < 1
  ∧ ∃ blk,
      HarDBlock_init (num := float) 20 10 (num_literal 1) 0 false false false = Ok blk
      ∧ HarDBlock_forward blk (Tensor 7) = Ok (Tensor 7).
Proof.
  split; [lia|].
  apply (empty_block_is_identity (num := float) 20 10 (num_literal 1) 0
           false false false (Tensor 7)); lia.
Defined.

(** ** Spatial extents *)

(** X11: a [conv_layer] of stride 1 keeps the height and width of its input
    exactly when its kernel is odd; the padding [kernel//2] is one short of
    that for an even kernel. *)
Theorem conv_layer_keeps_size_iff_odd (in_channels out_channels kernel size : Z) :
  transform_size (conv_layer in_channels out_channels kernel 1) size = size
  ↔ kernel `mod` 2 = 1.
Proof.
  unfold transform_size, conv2d_size. rewrite Z.div_1_r.
  pose proof (Z.div_mod kernel 2 ltac:(lia)) as Hdm.
  pose proof (Z.mod_pos_bound kernel 2 ltac:(lia)) as Hmb. lia.
Qed.

(** X12: in any arithmetic, every transform of a block that [__init__]
    returns keeps the height and width of its input, so the tensors
    [forward] concatenates inside the block all have the extents of the
    block's input. *)
Theorem block_transforms_keep_size {num : Type} `{PyNumber num}
    (in_channels growth_rate : Z) (grmul : num) (n_layers : Z)
    (keepBase' residual_out dwconv : bool) (blk : HarDBlock) :
  HarDBlock_init in_channels growth_rate grmul n_layers keepBase' residual_out dwconv
  = Ok blk →
  Forall (λ f, ∀ size, transform_size f size = size) (layers blk).
Proof.
  intros (_ & _ & Hlayers & Hbuilt & _)%HarDBlock_init_Ok.
  apply Forall_lookup. intros i f Hf.
  apply lookup_lt_Some in Hf as Hi.
  destruct (Hbuilt (Z.of_nat i) ltac:(lia)) as (out & inch & link & _ & _ & Hy).
  rewrite Nat2Z.id, Hf in Hy. injection Hy as ->.
  intros size. unfold transform_of. destruct dwconv; unfold transform_size, conv2d_size.
  - change (1 `div` 2) with 0. rewrite !Z.div_1_r. lia.
  - change (3 `div` 2) with 1. rewrite Z.div_1_r. lia.
Qed.

Lemma block_transforms_keep_size_witness :
  HarDBlock_init (num := float) 20 10 (num_literal 1) 4 false false false
  = Ok example_block
  ∧ Forall (λ f, ∀ size, transform_size f size = size) (layers example_block).
Proof.
  split; [vm_compute; reflexivity|].
  apply (block_transforms_keep_size (num := float) 20 10 (num_literal 1) 4
           false false false example_block).
  vm_compute; reflexivity.
Defined.

(** The width of a layer does not depend on the width of the block's
    input. *)
Lemma width_at_independent_of_base (base1 base2 growth_rate : Z) (grmul : Q) (k : Z) :
  1 ≤ k →
  width_at base1 growth_rate grmul k = width_at base2 growth_rate grmul k.
Proof.
  intros Hk.
  destruct (get_link_total k base1 growth_rate grmul) as (o1 & i1 & l1 & H1); [lia|].
  destruct (get_link_total k base2 growth_rate grmul) as (o2 & i2 & l2 & H2); [lia|].
  unfold width_at. rewrite H1, H2. simpl.
  apply get_link_Ok in H1 as (_ & Ho1 & _); [|done].
  apply get_link_Ok in H2 as (_ & Ho2 & _); [|done]. congruence.
Qed.

(** X13: the link lists of a block and the width it declares do not depend
    on the width of its input: two blocks that differ in [in_channels] only
    have the same [links] and the same [get_out_ch]. *)
Theorem declared_width_independent_of_input (in1 in2 growth_rate : Z) (grmul : Q)
    (n_layers : Z) (keepBase' residual_out dwconv : bool) :
  ∃ blk1 blk2,
    HarDBlock_init in1 growth_rate grmul n_layers keepBase' residual_out dwconv = Ok blk1
    ∧ HarDBlock_init in2 growth_rate grmul n_layers keepBase' residual_out dwconv = Ok blk2
    ∧ links blk1 = links blk2
    ∧ get_out_ch blk1 = get_out_ch blk2.
Proof.
  destruct (HarDBlock_init_total in1 growth_rate grmul n_layers keepBase' residual_out
              dwconv) as [blk1 H1].
  destruct (HarDBlock_init_total in2 growth_rate grmul n_layers keepBase' residual_out
              dwconv) as [blk2 H2].
  exists blk1, blk2. split; [done|]. split; [done|].
  apply HarDBlock_init_Ok in H1 as (_ & Hlen1 & _ & Hb1 & Ho1).
  apply HarDBlock_init_Ok in H2 as (_ & Hlen2 & _ & Hb2 & Ho2).
  split.
  - apply list_eq. intros i.
    destruct (decide (i < Z.to_nat n_layers)%nat) as [Hi|Hi].
    + destruct (Hb1 (Z.of_nat i) ltac:(lia)) as (o1 & i1 & l1 & Hr1 & Hl1 & _).
      destruct (Hb2 (Z.of_nat i) ltac:(lia)) as (o2 & i2 & l2 & Hr2 & Hl2 & _).
      rewrite Nat2Z.id in Hl1, Hl2. rewrite Hl1, Hl2. f_equal.
      apply get_link_Ok in Hr1 as (-> & _); [|lia].
      apply get_link_Ok in Hr2 as (-> & _); [|lia]. done.
    + rewrite !lookup_ge_None_2 by lia. done.
  - unfold get_out_ch. rewrite Ho1, Ho2. apply masked_sum_ext.
    intros i Hi. split; [done|]. apply width_at_independent_of_base. lia.
Qed.

(** ** The network *)

Ltac case_scrutinee :=
  match goal with
  | |- context [match ?x with _ => _ end] => destruct x
  end.

(** [__init__] is the construction without weights followed by the loading
    of the weights. *)
Lemma HarDNet_init_pretrained {num : Type} `{PyNumber num} (env : environment)
    (depth_wise : bool) (arch : Z) (pretrained : bool) (weight_path : string)
    (self : HarDNet) :
  HarDNet_init env depth_wise arch pretrained weight_path self
  = match HarDNet_init env depth_wise arch false weight_path self with
    | (Ok _, self') =>
        (if pretrained then load_pretrained env arch depth_wise weight_path
         else mret ()) self'
    | (Raise e, self') => (Raise e, self')
    end.
Proof.
  unfold HarDNet_init, mbind, init_bind, lift, append, mret, init_ret.
  repeat (cbv beta iota; try reflexivity; case_scrutinee).
Qed.

(** Loading weights leaves [self.base] as it is. *)
Lemma load_pretrained_base (env : environment) (arch : Z) (depth_wise : bool)
    (weight_path : string) (self self' : HarDNet) (r : result unit) :
  load_pretrained env arch depth_wise weight_path self = (r, self') →
  base self' = base self.
Proof.
  unfold load_pretrained, self_load_state_dict, mbind, init_bind, lift.
  repeat (cbv beta iota zeta; try (by intros [= <- <-]); case_scrutinee).
Qed.

(** X14: requesting pretrained weights changes nothing in what is built:
    whatever the arguments, the environment and the arithmetic,
    [self.base] ends as it does without them; and when the construction
    without weights raises, the construction with weights raises the same
    exception. *)
Theorem pretrained_builds_same_stages {num : Type} `{PyNumber num} (env : environment)
    (depth_wise : bool) (arch : Z) (pretrained : bool) (weight_path : string) :
  base (HarDNet_init env depth_wise arch pretrained weight_path new_module).2
  = base (HarDNet_init env depth_wise arch false weight_path new_module).2
  ∧ ((HarDNet_init env depth_wise arch false weight_path new_module).1 = Ok ()
     ∨ (HarDNet_init env depth_wise arch pretrained weight_path new_module).1
       = (HarDNet_init env depth_wise arch false weight_path new_module).1).
Proof.
  rewrite (HarDNet_init_pretrained env depth_wise arch pretrained).
  destruct (HarDNet_init env depth_wise arch false weight_path new_module)
    as [[[]|e] built]; [|by split; [|right]].
  split; [|by left]. destruct pretrained; [|done]. simpl.
  destruct (load_pretrained env arch depth_wise weight_path built) as [r self'] eqn:Hload.
  by apply load_pretrained_base in Hload.
Qed.

(** X15: without [torch.hub], pretrained weights are read from
    [weight_path] followed by the codename in lower case and [".pth"]; when
    the construction itself succeeds and no such file exists, [__init__]
    raises [FileNotFoundError] for that path.  No table is consulted: this
    holds for the depthwise 39 and 85 variants too. *)
Theorem missing_weight_file {num : Type} `{PyNumber num} (env : environment)
    (depth_wise : bool) (arch : Z) (weight_path : string) :
  has_hub env = false →
  isfile env (weight_path +:+ lower (arch_codename arch depth_wise) +:+ ".pth") = false →
  (HarDNet_init env depth_wise arch false weight_path new_module).1 = Ok () →
  (HarDNet_init env depth_wise arch true weight_path new_module).1
  = Raise (FileNotFoundError
             (weight_path +:+ lower (arch_codename arch depth_wise) +:+ ".pth")).
Proof.
  intros Hhub Hfile Hbuilt.
  rewrite (HarDNet_init_pretrained env depth_wise arch true).
  destruct (HarDNet_init env depth_wise arch false weight_path new_module)
    as [[[]|e] built]; [|done].
  unfold load_pretrained. by rewrite Hhub, Hfile.
Qed.

Lemma missing_weight_file_witness :
  has_hub offline_environment = false
  ∧ isfile offline_environment ("weights/" +:+ lower (arch_codename 85 true) +:+ ".pth")
    = false
  ∧ (HarDNet_init (num := float) offline_environment true 85 false "weights/"
       new_module).1 = Ok ()
  ∧ (HarDNet_init (num := float) offline_environment true 85 true "weights/"
       new_module).1
    = Raise (FileNotFoundError
               ("weights/" +:+ lower (arch_codename 85 true) +:+ ".pth")).
Proof.
  split; [reflexivity|]. split; [reflexivity|]. split; [vm_compute; reflexivity|].
  apply (missing_weight_file (num := float) offline_environment true 85 "weights/");
    [reflexivity | reflexivity | vm_compute; reflexivity].
Defined.

(** X16: with [torch.hub], when the construction itself succeeds, the
    codename is a key of the checkpoint table, the download succeeds and the
    state dict fits, [__init__] returns the network built without weights
    with that state dict loaded. *)
Theorem pretrained_from_hub {num : Type} `{PyNumber num} (env : environment)
    (depth_wise : bool) (arch : Z) (weight_path url weights : string) :
  has_hub env = true →
  (HarDNet_init env depth_wise arch false weight_path new_module).1 = Ok () →
  checkpoint_urls !! arch_codename arch depth_wise = Some url →
  load_state_dict_from_url env url = Ok weights →
  load_state_dict env
    (base (HarDNet_init env depth_wise arch false weight_path new_module).2) weights
  = Ok () →
  HarDNet_init env depth_wise arch true weight_path new_module
  = (Ok (),
     mkHarDNet (base (HarDNet_init env depth_wise arch false weight_path new_module).2)
       (Some weights)).
Proof.
  intros Hhub Hbuilt Hurl Hfetch Hfits.
  rewrite (HarDNet_init_pretrained env depth_wise arch true).
  destruct (HarDNet_init env depth_wise arch false weight_path new_module)
    as [[[]|e] built]; [|done].
  simpl in Hfits |- *.
  unfold load_pretrained, dict_getitem, self_load_state_dict, mbind, init_bind, lift.
  by rewrite Hhub, Hurl, Hfetch, Hfits.
Qed.

Lemma pretrained_from_hub_witness :
  has_hub hub_environment = true
  ∧ (HarDNet_init (num := float) hub_environment true 68 false "" new_module).1 = Ok ()
  ∧ checkpoint_urls !! arch_codename 68 true
    = Some "https://ping-chao.com/hardnet/hardnet68ds-632474d2.pth"
  ∧ load_state_dict_from_url hub_environment
      "https://ping-chao.com/hardnet/hardnet68ds-632474d2.pth"
    = Ok "https://ping-chao.com/hardnet/hardnet68ds-632474d2.pth"
  ∧ load_state_dict hub_environment
      (base (HarDNet_init (num := float) hub_environment true 68 false "" new_module).2)
      "https://ping-chao.com/hardnet/hardnet68ds-632474d2.pth"
    = Ok ()
  ∧ HarDNet_init (num := float) hub_environment true 68 true "" new_module
    = (Ok (),
       mkHarDNet
         (base (HarDNet_init (num := float) hub_environment true 68 false ""
                  new_module).2)
         (Some "https://ping-chao.com/hardnet/hardnet68ds-632474d2.pth")).
Proof.
  split; [reflexivity|]. split; [vm_compute; reflexivity|].
  split; [vm_compute; reflexivity|]. split; [reflexivity|]. split; [reflexivity|].
  apply (pretrained_from_hub (num := float) hub_environment true 68 ""
           "https://ping-chao.com/hardnet/hardnet68ds-632474d2.pth"
           "https://ping-chao.com/hardnet/hardnet68ds-632474d2.pth");
    [reflexivity | vm_compute; reflexivity | vm_compute; reflexivity
     | reflexivity | reflexivity].
Defined.

(** A network that [__init__] returns is one of the five that the
    construction without weights completes. *)
Lemma constructed_base (a : arithmetic) (env : environment) (depth_wise : bool)
    (arch : Z) (pretrained : bool) (weight_path : string) (self : HarDNet) :
  HarDNet_new a env depth_wise arch pretrained weight_path = (Ok (), self) →
  (arch = 68 ∨ arch = 85 ∨ arch = 39)
  ∧ (HarDNet_new a env depth_wise arch false weight_path).1 = Ok ()
  ∧ base self = base (HarDNet_new a env depth_wise arch false weight_path).2.
Proof.
  intros Hnew.
  assert ((HarDNet_new a env depth_wise arch false weight_path).1 = Ok ()
          ∧ base self = base (HarDNet_new a env depth_wise arch false weight_path).2)
    as [Hok Hbase].
  { destruct a; unfold HarDNet_new in *;
      rewrite (HarDNet_init_pretrained env depth_wise arch pretrained) in Hnew;
      (destruct (HarDNet_init env depth_wise arch false weight_path new_module)
         as [[[]|e] built]; [|done]);
      (split; [done|]); (destruct pretrained; [|by injection Hnew as <-]);
      by apply load_pretrained_base in Hnew. }
  split; [|done].
  destruct (decide (arch = 68)); [tauto|]. destruct (decide (arch = 85)); [tauto|].
  destruct (decide (arch = 39)); [tauto|]. exfalso.
  destruct a; unfold HarDNet_new, HarDNet_init, select_profile in Hok;
    by rewrite !bool_decide_eq_false_2 in Hok by done.
Qed.

Ltac each_network a depth_wise Harch :=
  destruct Harch as [-> | [-> | ->]]; destruct a, depth_wise.

(** X18: every network that [__init__] returns refuses an input whose
    channel count is not 3: its first convolution raises [RuntimeError]. *)
Theorem network_rejects_other_widths (a : arithmetic) (env : environment)
    (depth_wise : bool) (arch : Z) (pretrained : bool) (weight_path : string)
    (self : HarDNet) (x : tensor) :
  HarDNet_new a env depth_wise arch pretrained weight_path = (Ok (), self) →
  channels x ≠ 3 →
  ∃ msg, HarDNet_forward self x = Raise (RuntimeError msg).
Proof.
  intros (Harch & Hok & Hbase)%constructed_base Hx.
  assert (∃ c rest, base self = Transform (conv_layer 3 c 3 2) :: rest)
    as (c & rest & Hfirst).
  { rewrite Hbase. clear Hbase.
    each_network a depth_wise Harch;
      first [vm_compute in Hok; discriminate Hok
            | eexists _, _; vm_compute; reflexivity]. }
  unfold HarDNet_forward. rewrite Hfirst. eexists. apply foldM_raise.
  unfold apply_stage, apply_transform, conv2d.
  by rewrite bool_decide_eq_false_2.
Qed.

Lemma network_rejects_other_widths_witness :
  HarDNet_new ieee_binary64 hub_environment false 85 true ""
  = (Ok (), (HarDNet_new ieee_binary64 hub_environment false 85 true "").2)
  ∧ channels (Tensor 1) ≠ 3
  ∧ ∃ msg,
      HarDNet_forward (HarDNet_new ieee_binary64 hub_environment false 85 true "").2
        (Tensor 1)
      = Raise (RuntimeError msg).
Proof.
  split; [vm_compute; reflexivity|]. split; [simpl; lia|].
  apply (network_rejects_other_widths ieee_binary64 hub_environment false 85 true "");
    [vm_compute; reflexivity | simpl; lia].
Defined.
